(** * MoonDeck: the app-session proxy ([MoonDeckAppProxy])

    A shallow embedding of the TypeScript class [MoonDeckAppProxy] and of the
    helper [killRunner] that lives next to it.

    The class owns one rxjs [BehaviorSubject<MoonDeckAppData | null>] and talks
    to the outside world through four asynchronous calls: [setShortcutName]
    and [terminateApp] (steamutils), [serverAPI.callPluginMethod] and
    [commandProxy.closeSteam].  Each method is embedded as a computation in a
    small state-and-exception monad [Async]:

    - the state is a [World]: the value held by the subject, and the
      chronological log of everything the proxy did that another party can
      observe (values pushed with [subject.next], remote calls with their
      replies, logger calls);
    - the outside world is a [Host]: for each remote call it gives the reply,
      as a function of the whole log so far, so that a host may answer every
      call differently;
    - a computation either returns or throws (a rejected promise).

    The methods run one at a time: the class has no lock and the callers
    serialise their calls, so an [await] is a plain sequencing point here.
    [setShortcutName] and [terminateApp] are declared [Promise<boolean>] and
    are taken to resolve; [callPluginMethod] and [closeSteam] may also be
    rejected.  JavaScript numbers that hold application identifiers are
    integers and are embedded as [Z]. *)

From Stdlib Require Import ZArith String List Bool DecimalString.
Import ListNotations.

Local Open Scope Z_scope.
Local Open Scope string_scope.
Local Open Scope list_scope.

(** * The embedding *)

(* ================================================================== *)
(** ** Data model *)
(* ================================================================== *)

(** [interface SessionOptions] *)
Record SessionOptions : Type := mkSessionOptions {
  nameSetToAppId : bool
}.

(** [interface MoonDeckAppData] *)
Record MoonDeckAppData : Type := mkMoonDeckAppData {
  steamAppId : Z;
  moonDeckAppId : Z;
  name : string;
  redirected : bool;
  beingKilled : bool;
  beingSuspended : bool;
  sessionOptions : SessionOptions
}.

(** The object spreads of the source, one per field that is overwritten:
    [{ ...v, redirected: b }], [{ ...v, beingKilled: b }],
    [{ ...v, beingSuspended: b }] and
    [{ ...v, sessionOptions: { ...v.sessionOptions, nameSetToAppId: b } }]. *)
Definition with_redirected (b : bool) (v : MoonDeckAppData) : MoonDeckAppData :=
  {| steamAppId := steamAppId v; moonDeckAppId := moonDeckAppId v;
     name := name v; redirected := b; beingKilled := beingKilled v;
     beingSuspended := beingSuspended v; sessionOptions := sessionOptions v |}.

Definition with_beingKilled (b : bool) (v : MoonDeckAppData) : MoonDeckAppData :=
  {| steamAppId := steamAppId v; moonDeckAppId := moonDeckAppId v;
     name := name v; redirected := redirected v; beingKilled := b;
     beingSuspended := beingSuspended v; sessionOptions := sessionOptions v |}.

Definition with_beingSuspended (b : bool) (v : MoonDeckAppData) : MoonDeckAppData :=
  {| steamAppId := steamAppId v; moonDeckAppId := moonDeckAppId v;
     name := name v; redirected := redirected v; beingKilled := beingKilled v;
     beingSuspended := b; sessionOptions := sessionOptions v |}.

Definition with_nameSetToAppId (b : bool) (v : MoonDeckAppData) : MoonDeckAppData :=
  {| steamAppId := steamAppId v; moonDeckAppId := moonDeckAppId v;
     name := name v; redirected := redirected v; beingKilled := beingKilled v;
     beingSuspended := beingSuspended v;
     sessionOptions := {| nameSetToAppId := b |} |}.

(** lodash's [isEqual] on two [MoonDeckAppData] objects: a deep, field by
    field comparison. *)
Definition isEqual_options (a b : SessionOptions) : bool :=
  Bool.eqb (nameSetToAppId a) (nameSetToAppId b).

Definition isEqual (a b : MoonDeckAppData) : bool :=
  Z.eqb (steamAppId a) (steamAppId b)
  && Z.eqb (moonDeckAppId a) (moonDeckAppId b)
  && String.eqb (name a) (name b)
  && Bool.eqb (redirected a) (redirected b)
  && Bool.eqb (beingKilled a) (beingKilled b)
  && Bool.eqb (beingSuspended a) (beingSuspended b)
  && isEqual_options (sessionOptions a) (sessionOptions b).

(** The template literal [`${n}`] for an integer [n]: its decimal digits,
    with a leading minus sign when negative (JavaScript prints an integer
    this way as long as it is below 10^21 in magnitude). *)
Definition numberToString (n : Z) : string :=
  NilZero.string_of_int (Z.to_int n).

(* ================================================================== *)
(** ** The observable log, the host and the world *)
(* ================================================================== *)

(** What [serverAPI.callPluginMethod] gives back: a response object
    [{ success, result }], or a rejected promise. *)
Inductive PluginReply : Type :=
| Responded (success : bool) (result : string)
| Rejected (message : string).

(** One entry of the log.  A remote call is logged together with the reply
    the host gave to it. *)
Inductive Event : Type :=
| SubjectNext (v : option MoonDeckAppData)
| SetShortcutName (appId : Z) (newName : string) (reply : bool)
| TerminateApp (appId : Z) (timeout : Z) (reply : bool)
| CallPluginMethod (method : string) (app_id : Z) (reply : PluginReply)
| CloseSteam (force : bool) (reply : option string)
| LoggerError (message : string)
| LoggerCritical (message : string)
| LoggerToast (message : string) (output : string).

(** The collaborators of the proxy.  Each reply may depend on the log so far.
    [closeSteam] answers [None] when its promise resolves and [Some e] when it
    is rejected with [e]. *)
Record Host : Type := mkHost {
  host_setShortcutName : list Event -> Z -> string -> bool;
  host_terminateApp : list Event -> Z -> Z -> bool;
  host_callPluginMethod : list Event -> string -> Z -> PluginReply;
  host_closeSteam : list Event -> bool -> option string
}.

Record World : Type := mkWorld {
  subject_value : option MoonDeckAppData;
  trace : list Event
}.

(** The world right after [new MoonDeckAppProxy(...)]: the subject is a
    [BehaviorSubject] created with [null]. *)
Definition initial_world : World :=
  {| subject_value := None; trace := [] |}.

(* ================================================================== *)
(** ** The monad of asynchronous methods *)
(* ================================================================== *)

Inductive Completion (A : Type) : Type :=
| Returned (a : A)
| Thrown (e : string).
Arguments Returned {A} a.
Arguments Thrown {A} e.

Definition Async (A : Type) : Type := Host -> World -> Completion A * World.

Module AsyncMonad.

Definition ret {A} (a : A) : Async A := fun _ w => (Returned a, w).

Definition bind {A B} (m : Async A) (k : A -> Async B) : Async B :=
  fun h w =>
    match m h w with
    | (Returned a, w') => k a h w'
    | (Thrown e, w') => (Thrown e, w')
    end.

(** [try { body } catch (message) { handler }] *)
Definition try_catch {A} (body : Async A) (handler : string -> Async A) : Async A :=
  fun h w =>
    match body h w with
    | (Returned a, w') => (Returned a, w')
    | (Thrown e, w') => handler e h w'
    end.

Definition log (e : Event) (w : World) : World :=
  {| subject_value := subject_value w; trace := trace w ++ [e] |}.

(** [this.subject.value] *)
Definition get_value : Async (option MoonDeckAppData) :=
  fun _ w => (Returned (subject_value w), w).

(** [this.subject.value.f]: reading a property of [null] throws. *)
Definition deref_value : Async MoonDeckAppData :=
  fun _ w =>
    match subject_value w with
    | Some v => (Returned v, w)
    | None => (Thrown "TypeError: Cannot read properties of null", w)
    end.

(** [this.subject.next(v)]: the subject holds [v] and every observer is told. *)
Definition next (v : option MoonDeckAppData) : Async unit :=
  fun _ w => (Returned tt, {| subject_value := v; trace := trace w ++ [SubjectNext v] |}).

(** [await setShortcutName(appId, newName)] *)
Definition setShortcutName (appId : Z) (newName : string) : Async bool :=
  fun h w =>
    let r := host_setShortcutName h (trace w) appId newName in
    (Returned r, log (SetShortcutName appId newName r) w).

(** [await terminateApp(appId, timeout)] *)
Definition terminateApp (appId : Z) (timeout : Z) : Async bool :=
  fun h w =>
    let r := host_terminateApp h (trace w) appId timeout in
    (Returned r, log (TerminateApp appId timeout r) w).

(** [await serverAPI.callPluginMethod(method, { app_id })] *)
Definition callPluginMethod (method : string) (app_id : Z) : Async (bool * string) :=
  fun h w =>
    let r := host_callPluginMethod h (trace w) method app_id in
    let w' := log (CallPluginMethod method app_id r) w in
    match r with
    | Responded success result => (Returned (success, result), w')
    | Rejected message => (Thrown message, w')
    end.

(** [await this.commandProxy.closeSteam(force)] *)
Definition closeSteam (force : bool) : Async unit :=
  fun h w =>
    let r := host_closeSteam h (trace w) force in
    let w' := log (CloseSteam force r) w in
    match r with
    | None => (Returned tt, w')
    | Some e => (Thrown e, w')
    end.

Definition logger_error (message : string) : Async unit :=
  fun _ w => (Returned tt, log (LoggerError message) w).

Definition logger_critical (message : string) : Async unit :=
  fun _ w => (Returned tt, log (LoggerCritical message) w).

Definition logger_toast (message output : string) : Async unit :=
  fun _ w => (Returned tt, log (LoggerToast message output) w).

End AsyncMonad.
Import AsyncMonad.

Declare Scope async_scope.
Delimit Scope async_scope with async.
Notation "x <- m ;; k" := (bind m (fun x => k))
  (at level 61, m at next level, right associativity) : async_scope.
Notation "m ;; k" := (bind m (fun _ => k))
  (at level 61, right associativity) : async_scope.
Local Open Scope async_scope.

(* ================================================================== *)
(** ** The source, method by method *)
(* ================================================================== *)

(** [async function killRunner(serverAPI, appId)] *)
Definition killRunner (appId : Z) : Async unit :=
  try_catch
    (resp <- callPluginMethod "kill_runner" appId ;;
     if negb (fst resp)
     then logger_error ("Error while killing runner script: " ++ snd resp)
     else ret tt)
    (fun message => logger_critical message).

(** [setApp(steamAppId, moonDeckAppId, name, sessionOptions)] *)
Definition setApp (steamAppId' moonDeckAppId' : Z) (name' : string)
    (sessionOptions' : SessionOptions) : Async unit :=
  next (Some {| steamAppId := steamAppId';
                moonDeckAppId := moonDeckAppId';
                name := name';
                redirected := false;
                beingKilled := false;
                beingSuspended := false;
                sessionOptions := sessionOptions' |}).

(** [async changeName(changeToAppId)] *)
Definition changeName (changeToAppId : bool) : Async bool :=
  cur <- get_value ;;
  match cur with
  | None => ret false
  | Some v =>
      result <- (if changeToAppId
                 then setShortcutName (moonDeckAppId v) (numberToString (steamAppId v))
                 else setShortcutName (moonDeckAppId v) (name v)) ;;
      (if result : bool
       then
         v' <- deref_value ;;
         let newValue := with_nameSetToAppId changeToAppId v' in
         if negb (isEqual v' newValue) then next (Some newValue) else ret tt
       else ret tt) ;;
      ret result
  end.

(** [async applySessionOptions()] *)
Definition applySessionOptions : Async unit :=
  cur <- get_value ;;
  match cur with
  | None => ret tt
  | Some v =>
      ok <- changeName (nameSetToAppId (sessionOptions v)) ;;
      if negb ok
      then logger_toast "Failed to change shortcut name!" "warn"
      else ret tt
  end.

(** [canRedirect()] *)
Definition canRedirect : Async bool :=
  cur <- get_value ;;
  match cur with
  | None => ret false
  | Some v =>
      if redirected v
      then ret false
      else next (Some (with_redirected true v)) ;; ret true
  end.

(** [async clearApp()] *)
Definition clearApp : Async unit :=
  cur <- get_value ;;
  match cur with
  | None => ret tt
  | Some _ =>
      changeName false ;;
      next None
  end.

(** [async closeSteamOnHost()] *)
Definition closeSteamOnHost : Async unit :=
  cur <- get_value ;;
  match cur with
  | None => ret tt
  | Some _ => closeSteam false
  end.

(** [async killApp()] *)
Definition killApp : Async unit :=
  cur <- get_value ;;
  match cur with
  | None => ret tt
  | Some v =>
      next (Some (with_beingKilled true v)) ;;
      v1 <- deref_value ;;
      let nameSetToAppId' := nameSetToAppId (sessionOptions v1) in
      changeName false ;;
      v2 <- deref_value ;;
      terminated <- terminateApp (moonDeckAppId v2) 5000 ;;
      (if negb terminated
       then
         logger_toast "Failed to terminate, trying to kill!" "warn" ;;
         v3 <- deref_value ;;
         killRunner (moonDeckAppId v3)
       else ret tt) ;;
      if nameSetToAppId'
      then
        v4 <- deref_value ;;
        let newValue := with_nameSetToAppId nameSetToAppId' v4 in
        if negb (isEqual v4 newValue) then next (Some newValue) else ret tt
      else ret tt
  end.

(** [async suspendApp()] *)
Definition suspendApp : Async unit :=
  cur <- get_value ;;
  match cur with
  | None => ret tt
  | Some v =>
      next (Some (with_beingSuspended true v)) ;;
      killApp
  end.

(* ================================================================== *)
(** ** Running a method and reading the log *)
(* ================================================================== *)

Definition outcome {A} (m : Async A) (h : Host) (w : World) : Completion A :=
  fst (m h w).

Definition after {A} (m : Async A) (h : Host) (w : World) : World :=
  snd (m h w).

(** The entries a method added to the log. *)
Definition emitted {A} (m : Async A) (h : Host) (w : World) : list Event :=
  skipn (length (trace w)) (trace (after m h w)).

(** The value the subject holds after the entries [evs], when it held [cur]
    before them. *)
Fixpoint replay (cur : option MoonDeckAppData) (evs : list Event)
  : option MoonDeckAppData :=
  match evs with
  | [] => cur
  | SubjectNext v :: rest => replay v rest
  | _ :: rest => replay cur rest
  end.

Definition is_notification (e : Event) : bool :=
  match e with SubjectNext _ => true | _ => false end.

Definition is_rename (e : Event) : bool :=
  match e with SetShortcutName _ _ _ => true | _ => false end.

Definition is_terminate (e : Event) : bool :=
  match e with TerminateApp _ _ _ => true | _ => false end.

Definition is_kill_runner (e : Event) : bool :=
  match e with
  | CallPluginMethod method _ _ => String.eqb method "kill_runner"
  | _ => false
  end.

(** The calls that leave the plugin: rename, terminate, plugin method,
    close-steam. *)
Definition is_remote_call (e : Event) : bool :=
  match e with
  | SetShortcutName _ _ _ | TerminateApp _ _ _
  | CallPluginMethod _ _ _ | CloseSteam _ _ => true
  | _ => false
  end.

Definition count (p : Event -> bool) (evs : list Event) : nat :=
  length (filter p evs).

(* ================================================================== *)
(** ** Closed forms of the methods on an active session *)
(* ================================================================== *)

(** What a method does on an active session [v] is a function of [v] and
    of the replies of the host.  The definitions below spell it out, method
    by method: the entries added to the log and the value left in the
    subject.  The lemmas of the second part show that the methods above run
    as these say. *)

(** The new name [changeName] asks for. *)
Definition rename_target (changeToAppId : bool) (v : MoonDeckAppData) : string :=
  if changeToAppId then numberToString (steamAppId v) else name v.

(** Whether [changeName], once the host said [r], pushes a new value. *)
Definition changeName_writes (changeToAppId r : bool) (v : MoonDeckAppData) : bool :=
  r && negb (Bool.eqb (nameSetToAppId (sessionOptions v)) changeToAppId).

(** The value held after [changeName], the host having answered [r]. *)
Definition changeName_value (changeToAppId r : bool) (v : MoonDeckAppData)
  : MoonDeckAppData :=
  if changeName_writes changeToAppId r v
  then with_nameSetToAppId changeToAppId v else v.

(** The log of [changeName]: the rename call, then the write if any. *)
Definition changeName_events (changeToAppId r : bool) (v : MoonDeckAppData)
  : list Event :=
  SetShortcutName (moonDeckAppId v) (rename_target changeToAppId v) r
  :: (if changeName_writes changeToAppId r v
      then [SubjectNext (Some (with_nameSetToAppId changeToAppId v))]
      else []).

(** The reply of the host [h] to the rename call of [changeName], started in
    world [w] on the session [v]. *)
Definition changeName_reply (changeToAppId : bool) (h : Host) (w : World)
    (v : MoonDeckAppData) : bool :=
  host_setShortcutName h (trace w) (moonDeckAppId v) (rename_target changeToAppId v).

(** The log of [applySessionOptions]: that of [changeName], then the toast
    when the rename failed. *)
Definition applySessionOptions_events (r : bool) (v : MoonDeckAppData) : list Event :=
  changeName_events (nameSetToAppId (sessionOptions v)) r v
  ++ (if r then [] else [LoggerToast "Failed to change shortcut name!" "warn"]).

(** The log of [killRunner], the host having answered [p]. *)
Definition killRunner_events (appId : Z) (p : PluginReply) : list Event :=
  CallPluginMethod "kill_runner" appId p
  :: match p with
     | Responded true _ => []
     | Responded false result =>
         [LoggerError ("Error while killing runner script: " ++ result)]
     | Rejected message => [LoggerCritical message]
     end.

(** Whether the last step of [killApp] pushes a value: the recorded flag was
    set and the stored one differs from it. *)
Definition restore_writes (recorded : bool) (v : MoonDeckAppData) : bool :=
  recorded && negb (Bool.eqb (nameSetToAppId (sessionOptions v)) recorded).

(** The value held after [killApp] when the host answered [r1] to the
    rename. *)
Definition killApp_value (r1 : bool) (v : MoonDeckAppData) : MoonDeckAppData :=
  let v1 := with_beingKilled true v in
  let recorded := nameSetToAppId (sessionOptions v1) in
  let v2 := changeName_value false r1 v1 in
  if restore_writes recorded v2 then with_nameSetToAppId recorded v2 else v2.

(** The three stretches of the log of [killApp]: up to the rename, the
    terminate call, and what follows it.  [r1], [r2] and [p] are the host's
    replies to the rename, to the terminate call and to [kill_runner]. *)
Definition killApp_prologue (r1 : bool) (v : MoonDeckAppData) : list Event :=
  SubjectNext (Some (with_beingKilled true v))
  :: changeName_events false r1 (with_beingKilled true v).

Definition killApp_fallback (r2 : bool) (p : PluginReply) (v : MoonDeckAppData)
  : list Event :=
  if r2 then []
  else LoggerToast "Failed to terminate, trying to kill!" "warn"
       :: killRunner_events (moonDeckAppId v) p.

Definition killApp_restore (r1 : bool) (v : MoonDeckAppData) : list Event :=
  let v1 := with_beingKilled true v in
  let recorded := nameSetToAppId (sessionOptions v1) in
  let v2 := changeName_value false r1 v1 in
  if restore_writes recorded v2
  then [SubjectNext (Some (with_nameSetToAppId recorded v2))]
  else [].

Definition killApp_events (r1 r2 : bool) (p : PluginReply) (v : MoonDeckAppData)
  : list Event :=
  killApp_prologue r1 v
  ++ TerminateApp (moonDeckAppId v) 5000 r2
  :: killApp_fallback r2 p v
  ++ killApp_restore r1 v.

(** The replies of the host [h] during [killApp], started in world [w] on
    the session [v]. *)
Definition killApp_rename_reply (h : Host) (w : World) (v : MoonDeckAppData) : bool :=
  host_setShortcutName h
    (trace w ++ [SubjectNext (Some (with_beingKilled true v))])
    (moonDeckAppId v) (name v).

Definition killApp_terminate_reply (h : Host) (w : World) (v : MoonDeckAppData) : bool :=
  host_terminateApp h
    (trace w ++ killApp_prologue (killApp_rename_reply h w v) v)
    (moonDeckAppId v) 5000.

Definition killApp_runner_reply (h : Host) (w : World) (v : MoonDeckAppData)
  : PluginReply :=
  host_callPluginMethod h
    (trace w ++ killApp_prologue (killApp_rename_reply h w v) v
     ++ [TerminateApp (moonDeckAppId v) 5000 (killApp_terminate_reply h w v);
         LoggerToast "Failed to terminate, trying to kill!" "warn"])
    "kill_runner" (moonDeckAppId v).

(* ================================================================== *)
(** ** Checks on a stretch of the log *)
(* ================================================================== *)

(** Whether some rename call of [evs] asked for the name [newName]. *)
Definition rename_received (newName : string) (evs : list Event) : bool :=
  existsb (fun e => match e with
                    | SetShortcutName _ n _ => String.eqb n newName
                    | _ => false
                    end) evs.

(** Every remote call of [evs] is made while the subject, which held [cur]
    before [evs], holds a session with [beingKilled] set. *)
Fixpoint calls_guarded (cur : option MoonDeckAppData) (evs : list Event) : bool :=
  match evs with
  | [] => true
  | e :: rest =>
      (if is_remote_call e
       then match cur with Some v => beingKilled v | None => false end
       else true)
      && calls_guarded (replay cur [e]) rest
  end.

(** The three latches of a session, compared field by field. *)
Definition flags_le (a b : MoonDeckAppData) : bool :=
  implb (redirected a) (redirected b)
  && implb (beingKilled a) (beingKilled b)
  && implb (beingSuspended a) (beingSuspended b).

(** A write that replaces [cur] by [new] keeps the session and its latches. *)
Definition write_latched (cur new : option MoonDeckAppData) : bool :=
  match cur, new with
  | Some a, Some b => flags_le a b
  | Some _, None => false
  | None, _ => true
  end.

(** Every write of [evs] is latched, the subject holding [cur] before [evs]. *)
Fixpoint flags_latched (cur : option MoonDeckAppData) (evs : list Event) : bool :=
  match evs with
  | [] => true
  | SubjectNext new :: rest => write_latched cur new && flags_latched new rest
  | _ :: rest => flags_latched cur rest
  end.

(* ================================================================== *)
(** ** A concrete session *)
(* ================================================================== *)

(** A host on which every call succeeds. *)
Definition obliging_host : Host :=
  {| host_setShortcutName := fun _ _ _ => true;
     host_terminateApp := fun _ _ _ => true;
     host_callPluginMethod := fun _ _ _ => Responded true "";
     host_closeSteam := fun _ _ => None |}.

(** A host on which every call fails; the plugin channel itself is down. *)
Definition failing_host : Host :=
  {| host_setShortcutName := fun _ _ _ => false;
     host_terminateApp := fun _ _ _ => false;
     host_callPluginMethod := fun _ _ _ => Rejected "channel unreachable";
     host_closeSteam := fun _ _ => Some "channel unreachable" |}.

(** The session made by [setApp(100, 555, "Game X", { nameSetToAppId: false })]. *)
Definition game_x : MoonDeckAppData :=
  {| steamAppId := 100; moonDeckAppId := 555; name := "Game X";
     redirected := false; beingKilled := false; beingSuspended := false;
     sessionOptions := {| nameSetToAppId := false |} |}.

(** The world after that [setApp] on a new proxy, whatever the host. *)
Definition game_x_world : World :=
  after (setApp 100 555 "Game X" {| nameSetToAppId := false |})
    obliging_host initial_world.

(** The same session once [changeName(true)] has succeeded. *)
Definition game_x_renamed_world : World :=
  after (changeName true) obliging_host game_x_world.

(* ================================================================== *)
(** ** Sequences of calls *)
(* ================================================================== *)

(** The public methods of the proxy, as one call each. *)
Inductive Operation : Type :=
| SetApp (steamAppId' moonDeckAppId' : Z) (name' : string)
    (sessionOptions' : SessionOptions)
| ApplySessionOptions
| ChangeName (changeToAppId : bool)
| CanRedirect
| ClearApp
| CloseSteamOnHost
| KillApp
| SuspendApp.

(** A caller that takes whatever the call gives, value or rejection, and
    goes on. *)
Definition settled {A} (m : Async A) : Async unit :=
  fun h w => (Returned tt, snd (m h w)).

Definition perform (o : Operation) : Async unit :=
  match o with
  | SetApp a b n s => settled (setApp a b n s)
  | ApplySessionOptions => settled applySessionOptions
  | ChangeName b => settled (changeName b)
  | CanRedirect => settled canRedirect
  | ClearApp => settled clearApp
  | CloseSteamOnHost => settled closeSteamOnHost
  | KillApp => settled killApp
  | SuspendApp => settled suspendApp
  end.

Fixpoint perform_all (ops : list Operation) : Async unit :=
  match ops with
  | [] => ret tt
  | o :: rest => perform o ;; perform_all rest
  end.

(** The calls that neither replace nor clear the session. *)
Definition within_session (o : Operation) : bool :=
  match o with
  | SetApp _ _ _ _ | ClearApp => false
  | _ => true
  end.

(** A run of [m] from [w], where the subject holds the session [v], only
    adds to the log, leaves in the subject what its writes say, and keeps
    every write latched. *)
Definition keeps_latches {A} (m : Async A) (h : Host) (w : World)
    (v : MoonDeckAppData) : Prop :=
  exists evs,
    trace (snd (m h w)) = trace w ++ evs
    /\ subject_value (snd (m h w)) = replay (Some v) evs
    /\ flags_latched (Some v) evs = true.

(* ================================================================== *)
(** ** More checks: identity, addressing, idle proxy *)
(* ================================================================== *)

(** The calls that do not start a session. *)
Definition keeps_idle (o : Operation) : bool :=
  match o with
  | SetApp _ _ _ _ => false
  | _ => true
  end.

(** Two sessions with the same identifiers and the same name. *)
Definition same_identity (a b : MoonDeckAppData) : bool :=
  Z.eqb (steamAppId a) (steamAppId b)
  && Z.eqb (moonDeckAppId a) (moonDeckAppId b)
  && String.eqb (name a) (name b).

(** Every write of [evs] keeps the session and its identity, the subject
    holding [cur] before [evs]. *)
Fixpoint identity_kept (cur : option MoonDeckAppData) (evs : list Event) : bool :=
  match evs with
  | [] => true
  | SubjectNext new :: rest =>
      match cur, new with
      | Some a, Some b => same_identity a b
      | Some _, None => false
      | None, _ => true
      end && identity_kept new rest
  | _ :: rest => identity_kept cur rest
  end.

(** A remote call made on behalf of the session [v]: a rename of the
    shortcut of [v] to the name of [v] or to the decimal form of its
    [steamAppId], a terminate call for the shortcut of [v] with the timeout
    of 5000 ms, a [kill_runner] plugin call for the shortcut of [v], or a
    close-steam request without force.  Entries that are not remote calls
    pass. *)
Definition call_of_session (v : MoonDeckAppData) (e : Event) : bool :=
  match e with
  | SetShortcutName i n _ =>
      Z.eqb i (moonDeckAppId v)
      && (String.eqb n (name v) || String.eqb n (numberToString (steamAppId v)))
  | TerminateApp i t _ => Z.eqb i (moonDeckAppId v) && Z.eqb t 5000
  | CallPluginMethod method i _ =>
      String.eqb method "kill_runner" && Z.eqb i (moonDeckAppId v)
  | CloseSteam force _ => negb force
  | _ => true
  end.

(** A run of [m] from [w], where the subject holds the session [v], keeps
    the identity of the session in every write and makes remote calls on
    behalf of [v] only. *)
Definition keeps_identity {A} (m : Async A) (h : Host) (w : World)
    (v : MoonDeckAppData) : Prop :=
  exists evs,
    trace (snd (m h w)) = trace w ++ evs
    /\ subject_value (snd (m h w)) = replay (Some v) evs
    /\ identity_kept (Some v) evs = true
    /\ forallb (call_of_session v) evs = true.

(** * Properties *)

(* ================================================================== *)
(** ** Basic facts *)
(* ================================================================== *)

Lemma isEqual_refl v : isEqual v v = true.
Proof.
  unfold isEqual, isEqual_options.
  now rewrite !Z.eqb_refl, String.eqb_refl, !Bool.eqb_reflx.
Qed.

Lemma isEqual_eq a b : isEqual a b = true <-> a = b.
Proof.
  split; [| intros ->; apply isEqual_refl].
  unfold isEqual, isEqual_options. intros H.
  repeat (apply andb_prop in H; destruct H as [H ?]).
  destruct a as [a1 a2 a3 a4 a5 a6 [a7]], b as [b1 b2 b3 b4 b5 b6 [b7]]; cbn in *.
  repeat match goal with
         | E : Z.eqb _ _ = true |- _ => apply Z.eqb_eq in E
         | E : String.eqb _ _ = true |- _ => apply String.eqb_eq in E
         | E : Bool.eqb _ _ = true |- _ => apply Bool.eqb_prop in E
         end.
  congruence.
Qed.

Lemma isEqual_with_nameSetToAppId b v :
  isEqual v (with_nameSetToAppId b v)
  = Bool.eqb (nameSetToAppId (sessionOptions v)) b.
Proof.
  unfold isEqual, isEqual_options, with_nameSetToAppId; cbn.
  now rewrite !Z.eqb_refl, String.eqb_refl, !Bool.eqb_reflx.
Qed.

Lemma with_nameSetToAppId_same v :
  with_nameSetToAppId (nameSetToAppId (sessionOptions v)) v = v.
Proof. now destruct v as [? ? ? ? ? ? []]. Qed.

Lemma emitted_app {A} (m : Async A) h w evs :
  trace (after m h w) = trace w ++ evs -> emitted m h w = evs.
Proof.
  unfold emitted. intros ->.
  rewrite skipn_app, skipn_all, Nat.sub_diag. reflexivity.
Qed.

Lemma replay_app cur evs1 evs2 :
  replay cur (evs1 ++ evs2) = replay (replay cur evs1) evs2.
Proof.
  revert cur. induction evs1 as [| e evs1 IH]; intros cur; [reflexivity |].
  destruct e; cbn; apply IH.
Qed.

(* ================================================================== *)
(** ** Each method runs as its closed form says *)
(* ================================================================== *)

Create HintDb async discriminated.
#[local] Hint Unfold bind ret try_catch log get_value deref_value next
  setShortcutName terminateApp callPluginMethod closeSteam
  logger_error logger_critical logger_toast : async.

(** Unfold the monad and evaluate as far as the known data allows. *)
Ltac async_run := repeat (autounfold with async; cbn).

(** Bring every log of the goal to the shape [t ++ e1 :: e2 :: ...]. *)
Ltac trace_norm := repeat (progress (rewrite <- ?app_assoc; cbn [app])).

Lemma changeName_idle b h w :
  subject_value w = None -> changeName b h w = (Returned false, w).
Proof. intros E. unfold changeName. async_run. now rewrite E. Qed.

Lemma changeName_active b h w v :
  subject_value w = Some v ->
  changeName b h w
  = (Returned (changeName_reply b h w v),
     {| subject_value := Some (changeName_value b (changeName_reply b h w v) v);
        trace := trace w ++ changeName_events b (changeName_reply b h w v) v |}).
Proof.
  intros E.
  unfold changeName, changeName_reply, changeName_value, changeName_events,
    changeName_writes, rename_target.
  async_run. rewrite E.
  destruct b; async_run;
    match goal with
    | |- context [host_setShortcutName ?h ?t ?i ?n] =>
        destruct (host_setShortcutName h t i n)
    end; async_run; rewrite ?E; async_run; try reflexivity;
    rewrite isEqual_with_nameSetToAppId;
    destruct (nameSetToAppId (sessionOptions v)); async_run;
    rewrite <- ?app_assoc; reflexivity.
Qed.

Lemma bind_returned {A B} (m : Async A) (k : A -> Async B) h w a w' :
  m h w = (Returned a, w') -> bind m k h w = k a h w'.
Proof. unfold bind. now intros ->. Qed.

(** *** canRedirect *)

Lemma canRedirect_idle h w :
  subject_value w = None -> canRedirect h w = (Returned false, w).
Proof. intros E. unfold canRedirect. async_run. now rewrite E. Qed.

Lemma canRedirect_latched h w v :
  subject_value w = Some v -> redirected v = true ->
  canRedirect h w = (Returned false, w).
Proof. intros E R. unfold canRedirect. async_run. now rewrite E, R. Qed.

Lemma canRedirect_fresh h w v :
  subject_value w = Some v -> redirected v = false ->
  canRedirect h w
  = (Returned true,
     {| subject_value := Some (with_redirected true v);
        trace := trace w ++ [SubjectNext (Some (with_redirected true v))] |}).
Proof. intros E R. unfold canRedirect. async_run. now rewrite E, R. Qed.

(** *** clearApp *)

Lemma clearApp_idle h w :
  subject_value w = None -> clearApp h w = (Returned tt, w).
Proof. intros E. unfold clearApp. async_run. now rewrite E. Qed.

Lemma clearApp_active h w v :
  subject_value w = Some v ->
  clearApp h w
  = (Returned tt,
     {| subject_value := None;
        trace := trace w
                 ++ changeName_events false (changeName_reply false h w v) v
                 ++ [SubjectNext None] |}).
Proof.
  intros E. unfold clearApp.
  rewrite (bind_returned _ _ h w (Some v) w) by (async_run; now rewrite E).
  rewrite (bind_returned _ _ _ _ _ _ (changeName_active false h w v E)).
  async_run. now rewrite <- app_assoc.
Qed.

(** *** closeSteamOnHost *)

Lemma closeSteamOnHost_idle h w :
  subject_value w = None -> closeSteamOnHost h w = (Returned tt, w).
Proof. intros E. unfold closeSteamOnHost. async_run. now rewrite E. Qed.

Lemma closeSteamOnHost_active h w v :
  subject_value w = Some v ->
  closeSteamOnHost h w
  = (match host_closeSteam h (trace w) false with
     | None => Returned tt
     | Some e => Thrown e
     end,
     {| subject_value := Some v;
        trace := trace w ++ [CloseSteam false (host_closeSteam h (trace w) false)] |}).
Proof.
  intros E. unfold closeSteamOnHost. async_run. rewrite E.
  destruct (host_closeSteam h (trace w) false); cbn; now rewrite ?E.
Qed.

(** *** applySessionOptions *)

Lemma applySessionOptions_idle h w :
  subject_value w = None -> applySessionOptions h w = (Returned tt, w).
Proof. intros E. unfold applySessionOptions. async_run. now rewrite E. Qed.

Lemma applySessionOptions_active h w v :
  subject_value w = Some v ->
  applySessionOptions h w
  = (Returned tt,
     {| subject_value := Some v;
        trace := trace w
                 ++ applySessionOptions_events
                      (changeName_reply (nameSetToAppId (sessionOptions v)) h w v) v |}).
Proof.
  intros E. unfold applySessionOptions, applySessionOptions_events.
  rewrite (bind_returned _ _ h w (Some v) w) by (async_run; now rewrite E).
  rewrite (bind_returned _ _ _ _ _ _ (changeName_active _ h w v E)).
  unfold changeName_value, changeName_events, changeName_writes.
  rewrite Bool.eqb_reflx, andb_false_r.
  destruct (changeName_reply _ h w v); async_run; now rewrite <- ?app_assoc.
Qed.

(** *** killRunner *)

Lemma killRunner_closed appId h w :
  killRunner appId h w
  = (Returned tt,
     {| subject_value := subject_value w;
        trace := trace w
                 ++ killRunner_events appId
                      (host_callPluginMethod h (trace w) "kill_runner" appId) |}).
Proof.
  unfold killRunner, killRunner_events. async_run.
  destruct (host_callPluginMethod h (trace w) "kill_runner" appId) as [[] ?| ?];
    async_run; now rewrite <- ?app_assoc.
Qed.

(** *** killApp *)

Lemma killApp_idle h w :
  subject_value w = None -> killApp h w = (Returned tt, w).
Proof. intros E. unfold killApp. async_run. now rewrite E. Qed.

(** The last step of [killApp], on its own. *)
Lemma killApp_restore_step (recorded : bool) h w v :
  subject_value w = Some v ->
  (if recorded
   then
     v4 <- deref_value ;;
     let newValue := with_nameSetToAppId recorded v4 in
     if negb (isEqual v4 newValue) then next (Some newValue) else ret tt
   else ret tt) h w
  = (Returned tt,
     {| subject_value :=
          Some (if restore_writes recorded v
                then with_nameSetToAppId recorded v else v);
        trace := trace w
                 ++ (if restore_writes recorded v
                     then [SubjectNext (Some (with_nameSetToAppId recorded v))]
                     else []) |}).
Proof.
  intros E. unfold restore_writes. destruct w as [s t]; cbn in E; subst s.
  destruct recorded; async_run; rewrite ?app_nil_r; try reflexivity.
  rewrite isEqual_with_nameSetToAppId.
  destruct (nameSetToAppId (sessionOptions v)); async_run;
    now rewrite ?app_nil_r.
Qed.

Lemma changeName_value_moonDeckAppId b r v :
  moonDeckAppId (changeName_value b r v) = moonDeckAppId v.
Proof. unfold changeName_value. now destruct changeName_writes. Qed.

Lemma killApp_active h w v :
  subject_value w = Some v ->
  killApp h w
  = (Returned tt,
     {| subject_value := Some (killApp_value (killApp_rename_reply h w v) v);
        trace := trace w
                 ++ killApp_events (killApp_rename_reply h w v)
                      (killApp_terminate_reply h w v)
                      (killApp_runner_reply h w v) v |}).
Proof.
  intros E. unfold killApp.
  rewrite (bind_returned _ _ h w (Some v) w) by (async_run; now rewrite E).
  unfold killApp_runner_reply, killApp_terminate_reply, killApp_events,
    killApp_value, killApp_restore, killApp_fallback.
  cbn [sessionOptions with_beingKilled].
  pose (w1 := {| subject_value := Some (with_beingKilled true v);
                 trace := trace w ++ [SubjectNext (Some (with_beingKilled true v))] |}).
  rewrite (bind_returned _ _ h w tt w1) by reflexivity.
  rewrite (bind_returned _ _ h w1 (with_beingKilled true v) w1) by reflexivity.
  rewrite (bind_returned _ _ _ _ _ _
             (changeName_active false h w1 (with_beingKilled true v) eq_refl)).
  change (changeName_reply false h w1 (with_beingKilled true v))
    with (killApp_rename_reply h w v).
  replace (trace w1 ++ changeName_events false (killApp_rename_reply h w v)
                         (with_beingKilled true v))
    with (trace w ++ killApp_prologue (killApp_rename_reply h w v) v)
    by (unfold killApp_prologue; subst w1; cbn [trace]; now rewrite <- app_assoc).
  clear w1.
  generalize (killApp_rename_reply h w v) as r1; intros r1.
  pose proof (changeName_value_moonDeckAppId false r1 (with_beingKilled true v)) as Hid.
  cbn [moonDeckAppId with_beingKilled] in Hid.
  generalize dependent (changeName_value false r1 (with_beingKilled true v)).
  intros v2 Hid.
  cbn [sessionOptions with_beingKilled].
  generalize (killApp_prologue r1 v) as pro; intros pro.
  rewrite (bind_returned _ _ h _ v2 _) by reflexivity.
  rewrite Hid.
  erewrite (bind_returned (terminateApp _ _)) by reflexivity.
  cbn [trace].
  generalize (host_terminateApp h (trace w ++ pro) (moonDeckAppId v) 5000) as r2.
  intros [|]; cbn [negb].
  - rewrite (bind_returned (ret tt) _ _ _ tt _ eq_refl).
    rewrite killApp_restore_step with (v := v2) by reflexivity.
    unfold log; cbn [trace subject_value]. now trace_norm.
  - erewrite (bind_returned (bind _ _)).
    2:{ erewrite (bind_returned (logger_toast _ _)) by reflexivity.
        erewrite (bind_returned deref_value) by reflexivity.
        rewrite Hid. apply killRunner_closed. }
    rewrite killApp_restore_step with (v := v2) by reflexivity.
    unfold log; cbn [trace subject_value]. now trace_norm.
Qed.

(** *** suspendApp *)

Lemma suspendApp_idle h w :
  subject_value w = None -> suspendApp h w = (Returned tt, w).
Proof. intros E. unfold suspendApp. async_run. now rewrite E. Qed.

Lemma suspendApp_active h w v :
  subject_value w = Some v ->
  suspendApp h w
  = killApp h
      {| subject_value := Some (with_beingSuspended true v);
         trace := trace w ++ [SubjectNext (Some (with_beingSuspended true v))] |}.
Proof.
  intros E. unfold suspendApp.
  rewrite (bind_returned _ _ h w (Some v) w) by (async_run; now rewrite E).
  now erewrite (bind_returned (next _)) by reflexivity.
Qed.

(** *** setApp *)

Lemma setApp_closed a b n o h w :
  setApp a b n o h w
  = (Returned tt,
     {| subject_value := Some (mkMoonDeckAppData a b n false false false o);
        trace := trace w
                 ++ [SubjectNext (Some (mkMoonDeckAppData a b n false false false o))] |}).
Proof. reflexivity. Qed.

(* ================================================================== *)
(** ** The checks mean what they say *)
(* ================================================================== *)

Lemma calls_guarded_sound cur evs :
  calls_guarded cur evs = true ->
  forall pre e post,
    evs = pre ++ e :: post -> is_remote_call e = true ->
    exists v, replay cur pre = Some v /\ beingKilled v = true.
Proof.
  intros G pre. revert cur evs G.
  induction pre as [| x pre IH]; intros cur evs G e post -> R; cbn in G.
  - rewrite R in G. apply andb_prop in G as [G _].
    destruct cur as [v |]; [now exists v | discriminate].
  - apply andb_prop in G as [_ G].
    destruct (IH _ _ G e post eq_refl R) as (v & Hv & Hk).
    exists v. split; [| exact Hk]. now destruct x.
Qed.

Lemma flags_le_refl v : flags_le v v = true.
Proof. unfold flags_le. now destruct (redirected v), (beingKilled v), (beingSuspended v). Qed.

Lemma flags_le_trans a b c :
  flags_le a b = true -> flags_le b c = true -> flags_le a c = true.
Proof.
  unfold flags_le.
  destruct (redirected a), (redirected b), (redirected c),
    (beingKilled a), (beingKilled b), (beingKilled c),
    (beingSuspended a), (beingSuspended b), (beingSuspended c);
    cbn; congruence.
Qed.

Lemma flags_latched_app cur evs1 evs2 :
  flags_latched cur (evs1 ++ evs2)
  = flags_latched cur evs1 && flags_latched (replay cur evs1) evs2.
Proof.
  revert cur. induction evs1 as [| e evs1 IH]; intros cur; [reflexivity |].
  destruct e; cbn; rewrite ?IH, ?andb_assoc; reflexivity.
Qed.

Lemma flags_latched_replay v evs :
  flags_latched (Some v) evs = true ->
  exists v', replay (Some v) evs = Some v' /\ flags_le v v' = true.
Proof.
  revert v. induction evs as [| e evs IH]; intros v L; cbn in *.
  - exists v. split; [reflexivity | apply flags_le_refl].
  - destruct e as [[x |] | | | | | | |]; try (now apply IH); try discriminate.
    apply andb_prop in L as [Lx L].
    destruct (IH x L) as (v' & Hr & Hle).
    exists v'. split; [exact Hr | eapply flags_le_trans; eassumption].
Qed.

Lemma flags_latched_sound cur evs :
  flags_latched cur evs = true ->
  forall pre new post,
    evs = pre ++ SubjectNext new :: post ->
    write_latched (replay cur pre) new = true.
Proof.
  intros L pre. revert cur evs L.
  induction pre as [| x pre IH]; intros cur evs L new post ->; cbn in L.
  - now apply andb_prop in L as [L _].
  - destruct x; cbn; try (eapply IH; [eassumption | reflexivity]).
    apply andb_prop in L as [_ L]. eapply IH; [eassumption | reflexivity].
Qed.

(* ================================================================== *)
(** ** changeName *)
(* ================================================================== *)

Lemma changeName_outcome b h w v :
  subject_value w = Some v ->
  outcome (changeName b) h w = Returned (changeName_reply b h w v).
Proof. intros E. unfold outcome. now rewrite (changeName_active b h w v E). Qed.

Lemma changeName_emitted b h w v :
  subject_value w = Some v ->
  emitted (changeName b) h w
  = changeName_events b (changeName_reply b h w v) v.
Proof.
  intros E. apply emitted_app. unfold after.
  now rewrite (changeName_active b h w v E).
Qed.

Lemma changeName_after b h w v :
  subject_value w = Some v ->
  subject_value (after (changeName b) h w)
  = Some (changeName_value b (changeName_reply b h w v) v).
Proof. intros E. unfold after. now rewrite (changeName_active b h w v E). Qed.

(** C1, as the specification states it, fails.  After
    [setApp(100, 555, "Game X", { nameSetToAppId: false })] a successful
    [changeName(true)] makes one rename call, for the shortcut 555 and with
    the new name "100": no rename call receives "555". *)
Lemma changeName_identity_form_receives_steamAppId :
  subject_value game_x_world = Some game_x
  /\ outcome (changeName true) obliging_host game_x_world = Returned true
  /\ emitted (changeName true) obliging_host game_x_world
     = [SetShortcutName 555 "100" true;
        SubjectNext (Some (with_nameSetToAppId true game_x))]
  /\ rename_received "555" (emitted (changeName true) obliging_host game_x_world)
     = false.
Proof. repeat split; vm_compute; reflexivity. Qed.

(** C1, amended.  On an active session a successful [changeName(true)]
    calls the host rename primitive for the shortcut [moonDeckAppId] (the
    second argument of [setApp]) with the decimal form of [steamAppId] (the
    first argument of [setApp]) as the new name, and leaves
    [sessionOptions.nameSetToAppId] set in the stored value. *)
Theorem changeName_identity_form h w v :
  subject_value w = Some v ->
  outcome (changeName true) h w = Returned true ->
  emitted (changeName true) h w
  = SetShortcutName (moonDeckAppId v) (numberToString (steamAppId v)) true
    :: (if nameSetToAppId (sessionOptions v)
        then []
        else [SubjectNext (Some (with_nameSetToAppId true v))])
  /\ subject_value (after (changeName true) h w)
     = Some (with_nameSetToAppId true v).
Proof.
  intros E R.
  rewrite (changeName_outcome true h w v E) in R. injection R as R.
  rewrite (changeName_emitted true h w v E), (changeName_after true h w v E), R.
  unfold changeName_events, changeName_value, changeName_writes, rename_target.
  destruct v as [a b n r k s [[|]]]; cbn; split; reflexivity.
Qed.

(** The scenario of C1: the rename call receives "100". *)
Lemma changeName_identity_form_game_x :
  emitted (changeName true) obliging_host game_x_world
  = [SetShortcutName 555 "100" true;
     SubjectNext (Some (with_nameSetToAppId true game_x))]
  /\ subject_value (after (changeName true) obliging_host game_x_world)
     = Some (with_nameSetToAppId true game_x).
Proof.
  apply (changeName_identity_form obliging_host game_x_world game_x);
    reflexivity.
Defined.

(* ================================================================== *)
(** ** killApp *)
(* ================================================================== *)

Lemma killApp_outcome h w v :
  subject_value w = Some v -> outcome killApp h w = Returned tt.
Proof. intros E. unfold outcome. now rewrite (killApp_active h w v E). Qed.

Lemma killApp_emitted h w v :
  subject_value w = Some v ->
  emitted killApp h w
  = killApp_events (killApp_rename_reply h w v) (killApp_terminate_reply h w v)
      (killApp_runner_reply h w v) v.
Proof.
  intros E. apply emitted_app. unfold after.
  now rewrite (killApp_active h w v E).
Qed.

Lemma killApp_after h w v :
  subject_value w = Some v ->
  subject_value (after killApp h w)
  = Some (killApp_value (killApp_rename_reply h w v) v).
Proof. intros E. unfold after. now rewrite (killApp_active h w v E). Qed.

(** Split a session and the replies of the host into their cases. *)
Ltac killApp_cases v r1 r2 p :=
  destruct v as [? ? ? ? ? ? [[|]]];
  destruct r1, r2; try destruct p as [[|] ?| ?].

(** C2.  When [sessionOptions.nameSetToAppId] is set as [killApp] starts on
    an active session, [killApp] completes, the stored flag is set again at
    the end, and the log of the call holds exactly one rename call, the reset
    to the human-readable name that follows the [beingKilled] mark: the
    restoration of the flag issues no rename call. *)
Theorem killApp_restores_override h w v :
  subject_value w = Some v ->
  nameSetToAppId (sessionOptions v) = true ->
  outcome killApp h w = Returned tt
  /\ subject_value (after killApp h w) = Some (with_beingKilled true v)
  /\ nameSetToAppId (sessionOptions (with_beingKilled true v)) = true
  /\ exists rest,
       emitted killApp h w
       = SubjectNext (Some (with_beingKilled true v))
         :: SetShortcutName (moonDeckAppId v) (name v) (killApp_rename_reply h w v)
         :: rest
       /\ count is_rename rest = 0%nat.
Proof.
  intros E N.
  rewrite (killApp_outcome h w v E), (killApp_after h w v E),
    (killApp_emitted h w v E).
  generalize (killApp_rename_reply h w v) as r1,
    (killApp_terminate_reply h w v) as r2, (killApp_runner_reply h w v) as p.
  intros r1 r2 p.
  repeat split; [| exact N |].
  - killApp_cases v r1 r2 p; cbn in N |- *; try discriminate; reflexivity.
  - eexists. split; [reflexivity |].
    killApp_cases v r1 r2 p; cbn in N |- *; try discriminate; reflexivity.
Qed.

(** The scenario of the specification: [killApp] after a successful
    [changeName(true)] on "Game X". *)
Lemma killApp_restores_override_game_x :
  outcome killApp obliging_host game_x_renamed_world = Returned tt
  /\ subject_value (after killApp obliging_host game_x_renamed_world)
     = Some (with_beingKilled true (with_nameSetToAppId true game_x))
  /\ nameSetToAppId
       (sessionOptions (with_beingKilled true (with_nameSetToAppId true game_x)))
     = true
  /\ exists rest,
       emitted killApp obliging_host game_x_renamed_world
       = SubjectNext (Some (with_beingKilled true (with_nameSetToAppId true game_x)))
         :: SetShortcutName 555 "Game X" true
         :: rest
       /\ count is_rename rest = 0%nat.
Proof.
  apply (killApp_restores_override obliging_host game_x_renamed_world
           (with_nameSetToAppId true game_x)); reflexivity.
Defined.

(** C3.  On an active session [killApp] makes one terminate call, for the
    shortcut of the session and with a timeout of 5000 ms.  When the host
    answers it with success the log holds no [kill_runner] call; when the
    host answers it with failure the log holds exactly one, made after the
    terminate call for the same shortcut. *)
Theorem killApp_kill_runner_fallback h w v :
  subject_value w = Some v ->
  exists before rest,
    emitted killApp h w
    = before
      ++ TerminateApp (moonDeckAppId v) 5000 (killApp_terminate_reply h w v)
      :: rest
    /\ killApp_terminate_reply h w v
       = host_terminateApp h (trace w ++ before) (moonDeckAppId v) 5000
    /\ count is_terminate before = 0%nat
    /\ count is_terminate rest = 0%nat
    /\ count is_kill_runner before = 0%nat
    /\ (killApp_terminate_reply h w v = true ->
        count is_kill_runner (emitted killApp h w) = 0%nat)
    /\ (killApp_terminate_reply h w v = false ->
        count is_kill_runner (emitted killApp h w) = 1%nat
        /\ filter is_kill_runner rest
           = [CallPluginMethod "kill_runner" (moonDeckAppId v)
                (killApp_runner_reply h w v)]).
Proof.
  intros E. rewrite (killApp_emitted h w v E).
  exists (killApp_prologue (killApp_rename_reply h w v) v).
  eexists. split; [reflexivity |]. split; [reflexivity |].
  generalize (killApp_rename_reply h w v) as r1,
    (killApp_terminate_reply h w v) as r2, (killApp_runner_reply h w v) as p.
  intros r1 r2 p.
  repeat split; try intros R;
    killApp_cases v r1 r2 p; cbn; try discriminate; reflexivity.
Qed.

(** C3 on "Game X" with a host on which every call fails: one [kill_runner]
    call. *)
Lemma killApp_kill_runner_fallback_game_x :
  exists before rest,
    emitted killApp failing_host game_x_world
    = before
      ++ TerminateApp (moonDeckAppId game_x) 5000
           (killApp_terminate_reply failing_host game_x_world game_x)
      :: rest
    /\ killApp_terminate_reply failing_host game_x_world game_x
       = host_terminateApp failing_host (trace game_x_world ++ before)
           (moonDeckAppId game_x) 5000
    /\ count is_terminate before = 0%nat
    /\ count is_terminate rest = 0%nat
    /\ count is_kill_runner before = 0%nat
    /\ (killApp_terminate_reply failing_host game_x_world game_x = true ->
        count is_kill_runner (emitted killApp failing_host game_x_world) = 0%nat)
    /\ (killApp_terminate_reply failing_host game_x_world game_x = false ->
        count is_kill_runner (emitted killApp failing_host game_x_world) = 1%nat
        /\ filter is_kill_runner rest
           = [CallPluginMethod "kill_runner" (moonDeckAppId game_x)
                (killApp_runner_reply failing_host game_x_world game_x)]).
Proof.
  apply (killApp_kill_runner_fallback failing_host game_x_world game_x).
  reflexivity.
Defined.

Lemma killApp_events_guarded r1 r2 p v :
  calls_guarded (Some v) (killApp_events r1 r2 p v) = true.
Proof. killApp_cases v r1 r2 p; reflexivity. Qed.

Lemma killApp_value_beingKilled r1 v :
  beingKilled (killApp_value r1 v) = true.
Proof. destruct v as [? ? ? ? ? ? [[|]]], r1; reflexivity. Qed.

(** C4.  On an active session the first thing [killApp] does is to push the
    session with [beingKilled] set.  Every remote call of [killApp] (rename,
    terminate, [kill_runner]) is made while the subject holds a session with
    [beingKilled] set, and so does the subject when [killApp] is over,
    whatever the host answered. *)
Theorem killApp_marks_before_remote_calls h w v :
  subject_value w = Some v ->
  hd_error (emitted killApp h w)
  = Some (SubjectNext (Some (with_beingKilled true v)))
  /\ (forall pre e post,
        emitted killApp h w = pre ++ e :: post ->
        is_remote_call e = true ->
        exists v', replay (subject_value w) pre = Some v'
                   /\ beingKilled v' = true)
  /\ (exists v', subject_value (after killApp h w) = Some v'
                 /\ beingKilled v' = true).
Proof.
  intros E.
  rewrite (killApp_emitted h w v E), (killApp_after h w v E), E.
  split; [reflexivity |]. split.
  - apply calls_guarded_sound, killApp_events_guarded.
  - eexists. split; [reflexivity | apply killApp_value_beingKilled].
Qed.

(** C4 on "Game X" with a host on which every call fails. *)
Lemma killApp_marks_before_remote_calls_game_x :
  hd_error (emitted killApp failing_host game_x_world)
  = Some (SubjectNext (Some (with_beingKilled true game_x)))
  /\ (forall pre e post,
        emitted killApp failing_host game_x_world = pre ++ e :: post ->
        is_remote_call e = true ->
        exists v', replay (subject_value game_x_world) pre = Some v'
                   /\ beingKilled v' = true)
  /\ (exists v', subject_value (after killApp failing_host game_x_world) = Some v'
                 /\ beingKilled v' = true).
Proof.
  apply (killApp_marks_before_remote_calls failing_host game_x_world game_x).
  reflexivity.
Defined.

(* ================================================================== *)
(** ** canRedirect *)
(* ================================================================== *)

(** C6.  [canRedirect] returns [false] and leaves the world as it is when
    no session is active or when [redirected] is already set.  Otherwise it
    pushes the session with [redirected] set and returns [true]; a second
    call right after it returns [false] and pushes nothing. *)
Theorem canRedirect_one_shot h w :
  (subject_value w = None -> canRedirect h w = (Returned false, w))
  /\ (forall v, subject_value w = Some v -> redirected v = true ->
                canRedirect h w = (Returned false, w))
  /\ (forall v, subject_value w = Some v -> redirected v = false ->
        outcome canRedirect h w = Returned true
        /\ subject_value (after canRedirect h w) = Some (with_redirected true v)
        /\ emitted canRedirect h w = [SubjectNext (Some (with_redirected true v))]
        /\ canRedirect h (after canRedirect h w)
           = (Returned false, after canRedirect h w)).
Proof.
  split; [apply canRedirect_idle |].
  split; [apply canRedirect_latched |].
  intros v E R.
  pose proof (canRedirect_fresh h w v E R) as F.
  unfold outcome, after. rewrite (emitted_app canRedirect h w
    [SubjectNext (Some (with_redirected true v))])
    by (unfold after; now rewrite F).
  rewrite F. cbn [fst snd subject_value].
  repeat split.
Qed.

(** C6 on "Game X": [true], then [false]. *)
Lemma canRedirect_one_shot_game_x :
  outcome canRedirect obliging_host game_x_world = Returned true
  /\ subject_value (after canRedirect obliging_host game_x_world)
     = Some (with_redirected true game_x)
  /\ emitted canRedirect obliging_host game_x_world
     = [SubjectNext (Some (with_redirected true game_x))]
  /\ canRedirect obliging_host (after canRedirect obliging_host game_x_world)
     = (Returned false, after canRedirect obliging_host game_x_world).
Proof.
  apply (proj2 (proj2 (canRedirect_one_shot obliging_host game_x_world)) game_x);
    reflexivity.
Defined.

(* ================================================================== *)
(** ** changeName, continued *)
(* ================================================================== *)

(** C7.  With no session [changeName] returns [false] and does nothing: no
    host call, no write.  On an active session it makes one rename call and
    returns what the host answered to it, so it returns [true] exactly when
    the rename succeeded; when the rename failed the subject still holds the
    very same value and nothing was pushed. *)
Theorem changeName_result b h w :
  (subject_value w = None -> changeName b h w = (Returned false, w))
  /\ (forall v, subject_value w = Some v ->
        let r := host_setShortcutName h (trace w) (moonDeckAppId v)
                   (if b then numberToString (steamAppId v) else name v) in
        outcome (changeName b) h w = Returned r
        /\ filter is_rename (emitted (changeName b) h w)
           = [SetShortcutName (moonDeckAppId v)
                (if b then numberToString (steamAppId v) else name v) r]
        /\ (outcome (changeName b) h w = Returned true <-> r = true)
        /\ (r = false ->
            subject_value (after (changeName b) h w) = Some v
            /\ count is_notification (emitted (changeName b) h w) = 0%nat)).
Proof.
  split; [apply changeName_idle |].
  intros v E r.
  rewrite (changeName_outcome b h w v E), (changeName_emitted b h w v E),
    (changeName_after b h w v E).
  change (changeName_reply b h w v) with r.
  unfold changeName_events, changeName_value, rename_target.
  split; [reflexivity |].
  split; [now destruct (changeName_writes b r v) |].
  split; [split; [now intros [= ->] | now intros ->] |].
  intros F. unfold changeName_writes. rewrite F. now split.
Qed.

(** C7 on "Game X" with a host on which every call fails. *)
Lemma changeName_result_game_x :
  outcome (changeName true) failing_host game_x_world = Returned false
  /\ filter is_rename (emitted (changeName true) failing_host game_x_world)
     = [SetShortcutName 555 "100" false]
  /\ (outcome (changeName true) failing_host game_x_world = Returned true
      <-> false = true)
  /\ (false = false ->
      subject_value (after (changeName true) failing_host game_x_world)
      = Some game_x
      /\ count is_notification
           (emitted (changeName true) failing_host game_x_world) = 0%nat).
Proof.
  apply (proj2 (changeName_result true failing_host game_x_world) game_x).
  reflexivity.
Defined.

(** C8.  Two calls of [changeName] in a row with the same argument push at
    most one value between them.  A call that succeeds pushes a value only
    when the stored session is not deep-equal to the new one, and after a
    call that succeeded the next call pushes nothing. *)
Theorem changeName_twice_notifies_once b h w v :
  subject_value w = Some v ->
  let w' := after (changeName b) h w in
  (count is_notification (emitted (changeName b) h w)
   + count is_notification (emitted (changeName b) h w') <= 1)%nat
  /\ (outcome (changeName b) h w = Returned true ->
      count is_notification (emitted (changeName b) h w)
      = (if isEqual v (with_nameSetToAppId b v) then 0 else 1)%nat
      /\ count is_notification (emitted (changeName b) h w') = 0%nat).
Proof.
  intros E w'.
  pose proof (changeName_after b h w v E) as E'. fold w' in E'.
  rewrite (changeName_outcome b h w v E), (changeName_emitted b h w v E),
    (changeName_emitted b h w' _ E').
  rewrite isEqual_with_nameSetToAppId.
  generalize (changeName_reply b h w v) as r1,
    (changeName_reply b h w' (changeName_value b (changeName_reply b h w v) v)) as r2.
  intros r1 r2.
  unfold changeName_events, changeName_value, changeName_writes.
  split; [| intros R; injection R as R];
    destruct v as [? ? ? ? ? ? [[|]]], b, r1, r2;
    cbn in *; try discriminate; auto.
Qed.

(** C8 on "Game X": [changeName(true)] twice, both successful. *)
Lemma changeName_twice_notifies_once_game_x :
  (count is_notification (emitted (changeName true) obliging_host game_x_world)
   + count is_notification
       (emitted (changeName true) obliging_host game_x_renamed_world) <= 1)%nat
  /\ (outcome (changeName true) obliging_host game_x_world = Returned true ->
      count is_notification (emitted (changeName true) obliging_host game_x_world)
      = 1%nat
      /\ count is_notification
           (emitted (changeName true) obliging_host game_x_renamed_world)
         = 0%nat).
Proof.
  apply (changeName_twice_notifies_once true obliging_host game_x_world game_x).
  reflexivity.
Defined.

(** C10.  On an active session every call of [changeName] makes the rename
    call, and makes it first.  When [sessionOptions.nameSetToAppId] already
    has the value asked for, the call pushes nothing, and the rename call is
    all it does. *)
Theorem changeName_always_renames (b : bool) h w v :
  subject_value w = Some v ->
  let call := SetShortcutName (moonDeckAppId v)
                (if b then numberToString (steamAppId v) else name v)
                (host_setShortcutName h (trace w) (moonDeckAppId v)
                   (if b then numberToString (steamAppId v) else name v)) in
  hd_error (emitted (changeName b) h w) = Some call
  /\ count is_rename (emitted (changeName b) h w) = 1%nat
  /\ (nameSetToAppId (sessionOptions v) = b ->
      emitted (changeName b) h w = [call]
      /\ subject_value (after (changeName b) h w) = Some v).
Proof.
  intros E call.
  rewrite (changeName_emitted b h w v E), (changeName_after b h w v E).
  unfold changeName_events, changeName_value, changeName_writes.
  fold (rename_target b v) in call. fold (changeName_reply b h w v) in call.
  split; [reflexivity |].
  split; [now destruct (_ && _) |].
  intros <-. rewrite Bool.eqb_reflx, andb_false_r. now split.
Qed.

(** C10 on "Game X": [changeName(false)] while the flag is already [false]
    still makes the rename call. *)
Lemma changeName_always_renames_game_x :
  hd_error (emitted (changeName false) obliging_host game_x_world)
  = Some (SetShortcutName 555 "Game X" true)
  /\ count is_rename (emitted (changeName false) obliging_host game_x_world)
     = 1%nat
  /\ (nameSetToAppId (sessionOptions game_x) = false ->
      emitted (changeName false) obliging_host game_x_world
      = [SetShortcutName 555 "Game X" true]
      /\ subject_value (after (changeName false) obliging_host game_x_world)
         = Some game_x).
Proof.
  apply (changeName_always_renames false obliging_host game_x_world game_x).
  reflexivity.
Defined.

(* ================================================================== *)
(** ** clearApp *)
(* ================================================================== *)

(** C9.  With no session [clearApp] does nothing and pushes nothing.  On an
    active session it first runs [changeName(false)], whose rename call to
    the human-readable name opens the log of the call, and then pushes
    [null]; it completes with the subject empty whatever the host answered
    to the rename. *)
Theorem clearApp_best_effort h w :
  (subject_value w = None -> clearApp h w = (Returned tt, w))
  /\ (forall v, subject_value w = Some v ->
        outcome clearApp h w = Returned tt
        /\ subject_value (after clearApp h w) = None
        /\ emitted clearApp h w
           = emitted (changeName false) h w ++ [SubjectNext None]
        /\ hd_error (emitted clearApp h w)
           = Some (SetShortcutName (moonDeckAppId v) (name v)
                     (host_setShortcutName h (trace w) (moonDeckAppId v) (name v)))
        /\ count is_rename (emitted clearApp h w) = 1%nat
        /\ count is_notification (emitted (changeName false) h w)
           = (if host_setShortcutName h (trace w) (moonDeckAppId v) (name v)
              then if nameSetToAppId (sessionOptions v) then 1 else 0
              else 0)%nat).
Proof.
  split; [apply clearApp_idle |].
  intros v E.
  pose proof (clearApp_active h w v E) as C.
  unfold outcome, after at 1.
  rewrite (emitted_app clearApp h w _ (f_equal trace (f_equal snd C))).
  rewrite C, (changeName_emitted false h w v E).
  change (changeName_reply false h w v)
    with (host_setShortcutName h (trace w) (moonDeckAppId v) (name v)).
  generalize (host_setShortcutName h (trace w) (moonDeckAppId v) (name v)) as r.
  intros r. unfold changeName_events, changeName_writes, rename_target.
  destruct r, (nameSetToAppId (sessionOptions v)); cbn; repeat split.
Qed.

(** C9 on "Game X" with the override active and a host on which the rename
    fails: the subject still ends empty. *)
Lemma clearApp_best_effort_game_x :
  outcome clearApp failing_host game_x_renamed_world = Returned tt
  /\ subject_value (after clearApp failing_host game_x_renamed_world) = None
  /\ emitted clearApp failing_host game_x_renamed_world
     = emitted (changeName false) failing_host game_x_renamed_world
       ++ [SubjectNext None]
  /\ hd_error (emitted clearApp failing_host game_x_renamed_world)
     = Some (SetShortcutName 555 "Game X" false)
  /\ count is_rename (emitted clearApp failing_host game_x_renamed_world) = 1%nat
  /\ count is_notification
       (emitted (changeName false) failing_host game_x_renamed_world)
     = 0%nat.
Proof.
  apply (proj2 (clearApp_best_effort failing_host game_x_renamed_world)
           (with_nameSetToAppId true game_x)).
  reflexivity.
Defined.

Ltac session_cases v := destruct v as [? ? ? [|] [|] [|] [[|]]].

Lemma changeName_keeps_latches b h w v :
  subject_value w = Some v -> keeps_latches (changeName b) h w v.
Proof.
  intros E. exists (changeName_events b (changeName_reply b h w v) v).
  rewrite (changeName_active b h w v E). cbn [snd trace subject_value].
  split; [reflexivity |].
  generalize (changeName_reply b h w v) as r. intros r.
  split; session_cases v; destruct b, r; reflexivity.
Qed.

Lemma applySessionOptions_keeps_latches h w v :
  subject_value w = Some v -> keeps_latches applySessionOptions h w v.
Proof.
  intros E. eexists.
  rewrite (applySessionOptions_active h w v E). cbn [snd trace subject_value].
  split; [reflexivity |].
  generalize (changeName_reply (nameSetToAppId (sessionOptions v)) h w v) as r.
  intros r. split; session_cases v; destruct r; reflexivity.
Qed.

Lemma canRedirect_keeps_latches h w v :
  subject_value w = Some v -> keeps_latches canRedirect h w v.
Proof.
  intros E. destruct (redirected v) eqn:R.
  - exists []. rewrite (canRedirect_latched h w v E R), app_nil_r.
    cbn. now rewrite E.
  - exists [SubjectNext (Some (with_redirected true v))].
    rewrite (canRedirect_fresh h w v E R). cbn [snd trace subject_value].
    repeat split. session_cases v; reflexivity.
Qed.

Lemma closeSteamOnHost_keeps_latches h w v :
  subject_value w = Some v -> keeps_latches closeSteamOnHost h w v.
Proof.
  intros E. eexists.
  rewrite (closeSteamOnHost_active h w v E). cbn [snd trace subject_value].
  repeat split.
Qed.

Lemma killApp_events_latched r1 r2 p v :
  replay (Some v) (killApp_events r1 r2 p v) = Some (killApp_value r1 v)
  /\ flags_latched (Some v) (killApp_events r1 r2 p v) = true.
Proof.
  split; session_cases v; destruct r1, r2; try destruct p as [[|] ?| ?];
    reflexivity.
Qed.

Lemma killApp_keeps_latches h w v :
  subject_value w = Some v -> keeps_latches killApp h w v.
Proof.
  intros E. eexists.
  rewrite (killApp_active h w v E). cbn [snd trace subject_value].
  split; [reflexivity |].
  destruct (killApp_events_latched (killApp_rename_reply h w v)
              (killApp_terminate_reply h w v) (killApp_runner_reply h w v) v)
    as [-> ->].
  now split.
Qed.

Lemma suspendApp_keeps_latches h w v :
  subject_value w = Some v -> keeps_latches suspendApp h w v.
Proof.
  intros E. unfold keeps_latches. rewrite (suspendApp_active h w v E).
  set (vs := with_beingSuspended true v).
  set (ws := {| subject_value := Some vs; trace := trace w ++ [SubjectNext (Some vs)] |}).
  destruct (killApp_keeps_latches h ws vs eq_refl) as (evs & Ht & Hv & Hl).
  exists (SubjectNext (Some vs) :: evs).
  rewrite Ht, Hv. subst ws. cbn [trace].
  rewrite <- app_assoc. repeat split.
  cbn [flags_latched]. rewrite Hl, andb_true_r.
  subst vs. session_cases v; reflexivity.
Qed.

Lemma perform_keeps_latches o h w v :
  within_session o = true ->
  subject_value w = Some v -> keeps_latches (perform o) h w v.
Proof.
  intros S E. destruct o; try discriminate S; cbn [perform];
    unfold keeps_latches, settled; cbn [snd].
  - now apply applySessionOptions_keeps_latches.
  - now apply changeName_keeps_latches.
  - now apply canRedirect_keeps_latches.
  - now apply closeSteamOnHost_keeps_latches.
  - now apply killApp_keeps_latches.
  - now apply suspendApp_keeps_latches.
Qed.

Lemma perform_all_cons o ops h w :
  perform_all (o :: ops) h w = perform_all ops h (snd (perform o h w)).
Proof.
  cbn [perform_all]. unfold bind.
  destruct o; reflexivity.
Qed.

Lemma perform_all_keeps_latches ops h w v :
  forallb within_session ops = true ->
  subject_value w = Some v -> keeps_latches (perform_all ops) h w v.
Proof.
  revert w v. induction ops as [| o ops IH]; intros w v S E.
  - exists []. cbn. now rewrite app_nil_r, E.
  - cbn [forallb] in S. apply andb_prop in S as [So S].
    destruct (perform_keeps_latches o h w v So E) as (evs1 & Ht1 & Hv1 & Hl1).
    destruct (flags_latched_replay v evs1 Hl1) as (v1 & Hr1 & _).
    rewrite Hr1 in Hv1.
    destruct (IH _ v1 S Hv1) as (evs2 & Ht2 & Hv2 & Hl2).
    exists (evs1 ++ evs2). unfold keeps_latches.
    rewrite perform_all_cons, Ht2, Hv2, Ht1, app_assoc, replay_app,
      flags_latched_app, Hr1, Hl1, Hl2.
    repeat split.
Qed.

(** [setApp] and [clearApp] are the two calls that are not latched:
    [setApp] starts a session whose three flags are [false], and [clearApp]
    leaves no session. *)
Lemma setApp_resets_flags a b n o h w :
  exists v, subject_value (after (setApp a b n o) h w) = Some v
            /\ redirected v = false /\ beingKilled v = false
            /\ beingSuspended v = false.
Proof. eexists. repeat split. Qed.

(** C5.  Through any sequence of calls other than [setApp] and [clearApp],
    made on an active session, the session stays, every value pushed to the
    subject is a session whose flags [redirected], [beingKilled] and
    [beingSuspended] are at least those of the value it replaces, and so the
    flags of the final value are at least those of the first one: a flag
    that is [true] is never put back to [false]. *)
Theorem session_flags_monotone h ops w v :
  subject_value w = Some v ->
  forallb within_session ops = true ->
  (exists v', subject_value (after (perform_all ops) h w) = Some v'
              /\ flags_le v v' = true)
  /\ (forall pre new post,
        emitted (perform_all ops) h w = pre ++ SubjectNext new :: post ->
        exists a b, replay (subject_value w) pre = Some a
                    /\ new = Some b
                    /\ flags_le a b = true).
Proof.
  intros E S.
  destruct (perform_all_keeps_latches ops h w v S E) as (evs & Ht & Hv & Hl).
  rewrite (emitted_app _ h w evs Ht). unfold after. rewrite Hv, E.
  split; [now apply flags_latched_replay |].
  intros pre new post ->.
  pose proof (flags_latched_sound _ _ Hl pre new post eq_refl) as W.
  rewrite flags_latched_app in Hl. apply andb_prop in Hl as [Hpre _].
  destruct (flags_latched_replay v pre Hpre) as (a & Ha & _).
  rewrite Ha in W |- *. destruct new as [b |]; [| discriminate W].
  now exists a, b.
Qed.

(** C5 on "Game X": redirect, suspend, then every other call that keeps
    the session, against a host on which every call fails. *)
Lemma session_flags_monotone_game_x :
  (exists v',
      subject_value
        (after (perform_all [CanRedirect; SuspendApp; ChangeName true;
                             ApplySessionOptions; CloseSteamOnHost; KillApp;
                             CanRedirect])
           failing_host game_x_world) = Some v'
      /\ flags_le game_x v' = true)
  /\ (forall pre new post,
        emitted (perform_all [CanRedirect; SuspendApp; ChangeName true;
                              ApplySessionOptions; CloseSteamOnHost; KillApp;
                              CanRedirect])
          failing_host game_x_world = pre ++ SubjectNext new :: post ->
        exists a b, replay (subject_value game_x_world) pre = Some a
                    /\ new = Some b
                    /\ flags_le a b = true).
Proof.
  apply (session_flags_monotone failing_host
           [CanRedirect; SuspendApp; ChangeName true; ApplySessionOptions;
            CloseSteamOnHost; KillApp; CanRedirect]
           game_x_world game_x); reflexivity.
Defined.


(* ================================================================== *)
(** ** The scenario of the specification, run *)
(* ================================================================== *)

(** [setApp(100, 555, "Game X", { nameSetToAppId: false })], a successful
    [changeName(true)], then [killApp()] with a terminate call that
    succeeds: the whole log of [killApp]. *)
Example killApp_game_x_log :
  emitted killApp obliging_host game_x_renamed_world
  = [SubjectNext (Some (with_beingKilled true (with_nameSetToAppId true game_x)));
     SetShortcutName 555 "Game X" true;
     SubjectNext (Some (with_beingKilled true game_x));
     TerminateApp 555 5000 true;
     SubjectNext (Some (with_beingKilled true (with_nameSetToAppId true game_x)))].
Proof. vm_compute. reflexivity. Qed.

(** The same [killApp] against a host on which every call fails: the rename
    fails and writes nothing, the terminate call fails, [kill_runner] is
    tried once and its rejection is logged, and the flag needs no
    restoration. *)
Example killApp_game_x_log_failing :
  emitted killApp failing_host game_x_renamed_world
  = [SubjectNext (Some (with_beingKilled true (with_nameSetToAppId true game_x)));
     SetShortcutName 555 "Game X" false;
     TerminateApp 555 5000 false;
     LoggerToast "Failed to terminate, trying to kill!" "warn";
     CallPluginMethod "kill_runner" 555 (Rejected "channel unreachable");
     LoggerCritical "channel unreachable"].
Proof. vm_compute. reflexivity. Qed.

(** [suspendApp] sets both flags. *)
Example suspendApp_game_x_flags :
  option_map (fun v => (beingSuspended v, beingKilled v))
    (subject_value (after suspendApp obliging_host game_x_world))
  = Some (true, true).
Proof. vm_compute. reflexivity. Qed.

(* ================================================================== *)
(** ** setApp, suspendApp and the net effect of killApp *)
(* ================================================================== *)

Lemma killApp_value_eq r1 v : killApp_value r1 v = with_beingKilled true v.
Proof. destruct v as [? ? ? ? ? ? [[|]]], r1; reflexivity. Qed.

(** X1.  [setApp] replaces whatever the subject holds, session or not, by
    the session it is given with the three flags down; it does so in one
    write and without any remote call, and a [canRedirect] right after it is
    granted, whatever the session before had reached. *)
Theorem setApp_replaces_session a b n o h w :
  outcome (setApp a b n o) h w = Returned tt
  /\ subject_value (after (setApp a b n o) h w)
     = Some (mkMoonDeckAppData a b n false false false o)
  /\ emitted (setApp a b n o) h w
     = [SubjectNext (Some (mkMoonDeckAppData a b n false false false o))]
  /\ outcome canRedirect h (after (setApp a b n o) h w) = Returned true.
Proof.
  split; [reflexivity |]. split; [reflexivity |].
  split; [now apply emitted_app | reflexivity].
Qed.

(** X2.  On an active session [suspendApp] first pushes the session with
    [beingSuspended] set, then runs [killApp] from there: it completes, the
    rest of its log is the log of that [killApp], and the subject ends with
    the session of the start, [beingSuspended] and [beingKilled] both set
    and nothing else changed. *)
Theorem suspendApp_sets_both_flags h w v :
  subject_value w = Some v ->
  outcome suspendApp h w = Returned tt
  /\ subject_value (after suspendApp h w)
     = Some (with_beingKilled true (with_beingSuspended true v))
  /\ emitted suspendApp h w
     = SubjectNext (Some (with_beingSuspended true v))
       :: emitted killApp h
            {| subject_value := Some (with_beingSuspended true v);
               trace := trace w ++ [SubjectNext (Some (with_beingSuspended true v))] |}.
Proof.
  intros E.
  set (vs := with_beingSuspended true v).
  set (ws := {| subject_value := Some vs;
                trace := trace w ++ [SubjectNext (Some vs)] |}).
  pose proof (suspendApp_active h w v E) as S. fold vs in S. fold ws in S.
  pose proof (killApp_active h ws vs eq_refl) as K.
  unfold outcome, after. rewrite S, K. cbn [fst snd subject_value].
  rewrite killApp_value_eq.
  split; [reflexivity |]. split; [reflexivity |].
  rewrite (killApp_emitted h ws vs eq_refl).
  apply emitted_app. unfold after. rewrite S, K. cbn [snd trace].
  subst ws. cbn [trace]. now rewrite <- app_assoc.
Qed.

(** X2 on "Game X" against a host on which every call fails. *)
Lemma suspendApp_sets_both_flags_game_x :
  outcome suspendApp failing_host game_x_world = Returned tt
  /\ subject_value (after suspendApp failing_host game_x_world)
     = Some (with_beingKilled true (with_beingSuspended true game_x))
  /\ emitted suspendApp failing_host game_x_world
     = SubjectNext (Some (with_beingSuspended true game_x))
       :: emitted killApp failing_host
            {| subject_value := Some (with_beingSuspended true game_x);
               trace := trace game_x_world
                        ++ [SubjectNext (Some (with_beingSuspended true game_x))] |}.
Proof.
  apply (suspendApp_sets_both_flags failing_host game_x_world game_x).
  reflexivity.
Defined.

(** X3.  Whatever the host answers, the net effect of [killApp] on the
    session it finds is to set [beingKilled]: every other field, the flag
    [sessionOptions.nameSetToAppId] included, ends as it started.  On the
    way the subject is written once, or three times when the flag was set
    and the rename succeeded (mark, flag down, flag up again). *)
Theorem killApp_net_effect h w v :
  subject_value w = Some v ->
  outcome killApp h w = Returned tt
  /\ subject_value (after killApp h w) = Some (with_beingKilled true v)
  /\ count is_notification (emitted killApp h w)
     = (if nameSetToAppId (sessionOptions v)
           && host_setShortcutName h
                (trace w ++ [SubjectNext (Some (with_beingKilled true v))])
                (moonDeckAppId v) (name v)
        then 3 else 1)%nat.
Proof.
  intros E.
  rewrite (killApp_outcome h w v E), (killApp_after h w v E),
    (killApp_emitted h w v E), killApp_value_eq.
  split; [reflexivity |]. split; [reflexivity |].
  change (host_setShortcutName h _ (moonDeckAppId v) (name v))
    with (killApp_rename_reply h w v).
  generalize (killApp_rename_reply h w v) as r1,
    (killApp_terminate_reply h w v) as r2, (killApp_runner_reply h w v) as p.
  intros r1 r2 p. killApp_cases v r1 r2 p; reflexivity.
Qed.

(** X3 on "Game X" once renamed, every call succeeding: three writes. *)
Lemma killApp_net_effect_game_x :
  outcome killApp obliging_host game_x_renamed_world = Returned tt
  /\ subject_value (after killApp obliging_host game_x_renamed_world)
     = Some (with_beingKilled true (with_nameSetToAppId true game_x))
  /\ count is_notification (emitted killApp obliging_host game_x_renamed_world)
     = 3%nat.
Proof.
  apply (killApp_net_effect obliging_host game_x_renamed_world
           (with_nameSetToAppId true game_x)).
  reflexivity.
Defined.

(** X4.  On an active session [killApp] always asks for the human-readable
    name before it asks to terminate, whether or not the name was
    overridden and whether or not a kill is already under way: the rename
    is its first remote call and the terminate call its second, and neither
    is made again after the terminate call. *)
Theorem killApp_renames_before_terminate h w v :
  subject_value w = Some v ->
  exists r1 r2 mid rest,
    emitted killApp h w
    = SubjectNext (Some (with_beingKilled true v))
      :: SetShortcutName (moonDeckAppId v) (name v) r1
      :: mid ++ TerminateApp (moonDeckAppId v) 5000 r2 :: rest
    /\ count is_remote_call mid = 0%nat
    /\ count is_rename rest = 0%nat
    /\ count is_terminate rest = 0%nat.
Proof.
  intros E. rewrite (killApp_emitted h w v E).
  exists (killApp_rename_reply h w v), (killApp_terminate_reply h w v).
  generalize (killApp_rename_reply h w v) as r1,
    (killApp_terminate_reply h w v) as r2, (killApp_runner_reply h w v) as p.
  intros r1 r2 p.
  exists (if changeName_writes false r1 (with_beingKilled true v)
          then [SubjectNext (Some (with_nameSetToAppId false (with_beingKilled true v)))]
          else []).
  exists (killApp_fallback r2 p v ++ killApp_restore r1 v).
  split; [reflexivity |].
  repeat split; killApp_cases v r1 r2 p; reflexivity.
Qed.

(** X4 on "Game X" with the flag down and a kill already under way. *)
Lemma killApp_renames_before_terminate_game_x :
  exists r1 r2 mid rest,
    emitted killApp obliging_host (after killApp failing_host game_x_world)
    = SubjectNext (Some (with_beingKilled true (with_beingKilled true game_x)))
      :: SetShortcutName (moonDeckAppId (with_beingKilled true game_x))
           (name (with_beingKilled true game_x)) r1
      :: mid
         ++ TerminateApp (moonDeckAppId (with_beingKilled true game_x)) 5000 r2
         :: rest
    /\ count is_remote_call mid = 0%nat
    /\ count is_rename rest = 0%nat
    /\ count is_terminate rest = 0%nat.
Proof.
  apply (killApp_renames_before_terminate obliging_host
           (after killApp failing_host game_x_world)
           (with_beingKilled true game_x)).
  reflexivity.
Defined.

(* ================================================================== *)
(** ** applySessionOptions, closeSteamOnHost and killRunner *)
(* ================================================================== *)

(** X5.  With no session [applySessionOptions] does nothing.  On an active
    session it makes one rename call, for the name form that the stored
    flag [sessionOptions.nameSetToAppId] asks for, never writes to the
    subject, success or not, and raises the warning toast exactly when the
    rename failed; it completes in both cases. *)
Theorem applySessionOptions_effect h w :
  (subject_value w = None -> applySessionOptions h w = (Returned tt, w))
  /\ (forall v, subject_value w = Some v ->
        let target := if nameSetToAppId (sessionOptions v)
                      then numberToString (steamAppId v) else name v in
        let r := host_setShortcutName h (trace w) (moonDeckAppId v) target in
        outcome applySessionOptions h w = Returned tt
        /\ subject_value (after applySessionOptions h w) = Some v
        /\ emitted applySessionOptions h w
           = SetShortcutName (moonDeckAppId v) target r
             :: (if r then []
                 else [LoggerToast "Failed to change shortcut name!" "warn"])).
Proof.
  split; [apply applySessionOptions_idle |].
  intros v E target r.
  pose proof (applySessionOptions_active h w v E) as A.
  unfold outcome, after. rewrite (emitted_app _ h w _ (f_equal trace (f_equal snd A))).
  rewrite A. cbn [fst snd subject_value].
  split; [reflexivity |]. split; [reflexivity |].
  unfold applySessionOptions_events, changeName_events, changeName_writes.
  change (changeName_reply (nameSetToAppId (sessionOptions v)) h w v) with r.
  rewrite Bool.eqb_reflx, andb_false_r. reflexivity.
Qed.

(** X5 on "Game X" against a host on which every call fails. *)
Lemma applySessionOptions_effect_game_x :
  outcome applySessionOptions failing_host game_x_world = Returned tt
  /\ subject_value (after applySessionOptions failing_host game_x_world)
     = Some game_x
  /\ emitted applySessionOptions failing_host game_x_world
     = [SetShortcutName 555 "Game X" false;
        LoggerToast "Failed to change shortcut name!" "warn"].
Proof.
  apply (proj2 (applySessionOptions_effect failing_host game_x_world) game_x).
  reflexivity.
Defined.

(** X6.  With no session [closeSteamOnHost] does nothing.  On an active
    session it makes one [closeSteam(false)] call and nothing else: the
    subject is not written, and the call is rejected towards the caller
    exactly when, and with what, the command layer rejected it. *)
Theorem closeSteamOnHost_effect h w :
  (subject_value w = None -> closeSteamOnHost h w = (Returned tt, w))
  /\ (forall v, subject_value w = Some v ->
        let r := host_closeSteam h (trace w) false in
        outcome closeSteamOnHost h w
        = match r with None => Returned tt | Some e => Thrown e end
        /\ subject_value (after closeSteamOnHost h w) = Some v
        /\ emitted closeSteamOnHost h w = [CloseSteam false r]).
Proof.
  split; [apply closeSteamOnHost_idle |].
  intros v E r.
  pose proof (closeSteamOnHost_active h w v E) as C.
  unfold outcome, after. rewrite (emitted_app _ h w _ (f_equal trace (f_equal snd C))).
  rewrite C. repeat split.
Qed.

(** X6 on "Game X" against a host that rejects the call. *)
Lemma closeSteamOnHost_effect_game_x :
  outcome closeSteamOnHost failing_host game_x_world
  = Thrown "channel unreachable"
  /\ subject_value (after closeSteamOnHost failing_host game_x_world)
     = Some game_x
  /\ emitted closeSteamOnHost failing_host game_x_world
     = [CloseSteam false (Some "channel unreachable")].
Proof.
  apply (proj2 (closeSteamOnHost_effect failing_host game_x_world) game_x).
  reflexivity.
Defined.

(** X7.  [killRunner] always completes and never writes to the subject.  It
    makes one [kill_runner] call for the given shortcut; a response without
    success is logged as an error with the text of the response, a rejected
    call is caught and logged as critical, and a successful response logs
    nothing. *)
Theorem killRunner_swallows_failures appId h w :
  outcome (killRunner appId) h w = Returned tt
  /\ subject_value (after (killRunner appId) h w) = subject_value w
  /\ emitted (killRunner appId) h w
     = CallPluginMethod "kill_runner" appId
         (host_callPluginMethod h (trace w) "kill_runner" appId)
       :: match host_callPluginMethod h (trace w) "kill_runner" appId with
          | Responded true _ => []
          | Responded false result =>
              [LoggerError ("Error while killing runner script: " ++ result)]
          | Rejected message => [LoggerCritical message]
          end.
Proof.
  pose proof (killRunner_closed appId h w) as K.
  unfold outcome, after. rewrite (emitted_app _ h w _ (f_equal trace (f_equal snd K))).
  rewrite K. repeat split.
Qed.

(* ================================================================== *)
(** ** The idle proxy, and what never rejects *)
(* ================================================================== *)

Lemma perform_idle o h w :
  keeps_idle o = true -> subject_value w = None ->
  perform o h w = (Returned tt, w).
Proof.
  intros K E. destruct o; try discriminate K; cbn [perform]; unfold settled.
  - now rewrite (applySessionOptions_idle h w E).
  - now rewrite (changeName_idle _ h w E).
  - now rewrite (canRedirect_idle h w E).
  - now rewrite (clearApp_idle h w E).
  - now rewrite (closeSteamOnHost_idle h w E).
  - now rewrite (killApp_idle h w E).
  - now rewrite (suspendApp_idle h w E).
Qed.

Lemma perform_all_idle ops h w :
  forallb keeps_idle ops = true -> subject_value w = None ->
  perform_all ops h w = (Returned tt, w).
Proof.
  induction ops as [| o ops IH]; intros K E; [reflexivity |].
  cbn [forallb] in K. apply andb_prop in K as [Ko K].
  rewrite perform_all_cons, (perform_idle o h w Ko E). now apply IH.
Qed.

Lemma clearApp_leaves_idle h w : subject_value (after clearApp h w) = None.
Proof.
  unfold after. destruct (subject_value w) as [v |] eqn:E.
  - now rewrite (clearApp_active h w v E).
  - now rewrite (clearApp_idle h w E).
Qed.

(** X8.  While no session is active, every method but [setApp] is without
    effect: any sequence of such calls leaves the subject empty and the log
    as it was, so no value is pushed and no remote call is made.  This is
    the state [clearApp] leaves, from an active session or not: after
    [clearApp] only [setApp] does anything. *)
Theorem idle_proxy_ignores_calls ops h w :
  forallb keeps_idle ops = true ->
  (subject_value w = None -> perform_all ops h w = (Returned tt, w))
  /\ perform_all ops h (after clearApp h w) = (Returned tt, after clearApp h w).
Proof.
  intros K. split.
  - now apply perform_all_idle.
  - apply perform_all_idle; [exact K | apply clearApp_leaves_idle].
Qed.

(** X8 on "Game X": cleared, then every method but [setApp]. *)
Lemma idle_proxy_ignores_calls_game_x :
  (subject_value game_x_world = None ->
   perform_all [KillApp; SuspendApp; CanRedirect; ChangeName true;
                ApplySessionOptions; CloseSteamOnHost; ClearApp]
     failing_host game_x_world = (Returned tt, game_x_world))
  /\ perform_all [KillApp; SuspendApp; CanRedirect; ChangeName true;
                  ApplySessionOptions; CloseSteamOnHost; ClearApp]
       failing_host (after clearApp failing_host game_x_world)
     = (Returned tt, after clearApp failing_host game_x_world).
Proof.
  apply (idle_proxy_ignores_calls
           [KillApp; SuspendApp; CanRedirect; ChangeName true;
            ApplySessionOptions; CloseSteamOnHost; ClearApp]
           failing_host game_x_world).
  reflexivity.
Defined.


(* ================================================================== *)
(** ** The identity of the session and the target of the remote calls *)
(* ================================================================== *)

Lemma same_identity_spec a b :
  same_identity a b = true
  <-> steamAppId b = steamAppId a /\ moonDeckAppId b = moonDeckAppId a
      /\ name b = name a.
Proof.
  unfold same_identity. rewrite !andb_true_iff, !Z.eqb_eq, String.eqb_eq.
  intuition congruence.
Qed.

Lemma same_identity_refl v : same_identity v v = true.
Proof. now apply same_identity_spec. Qed.

Lemma same_identity_trans a b c :
  same_identity a b = true -> same_identity b c = true ->
  same_identity a c = true.
Proof.
  rewrite !same_identity_spec. intros (? & ? & ?) (? & ? & ?).
  repeat split; congruence.
Qed.

Lemma call_of_session_same a b e :
  same_identity a b = true -> call_of_session b e = call_of_session a e.
Proof.
  rewrite same_identity_spec. intros (Hs & Hm & Hn).
  destruct e; cbn; now rewrite ?Hs, ?Hm, ?Hn.
Qed.

Lemma forallb_call_of_session_same a b evs :
  same_identity a b = true ->
  forallb (call_of_session b) evs = forallb (call_of_session a) evs.
Proof.
  intros S. induction evs as [| e evs IH]; [reflexivity |].
  cbn [forallb]. now rewrite IH, (call_of_session_same a b e S).
Qed.

Lemma identity_kept_app cur evs1 evs2 :
  identity_kept cur (evs1 ++ evs2)
  = identity_kept cur evs1 && identity_kept (replay cur evs1) evs2.
Proof.
  revert cur. induction evs1 as [| e evs1 IH]; intros cur; [reflexivity |].
  destruct e; cbn; rewrite ?IH, ?andb_assoc; reflexivity.
Qed.

Lemma identity_kept_replay v evs :
  identity_kept (Some v) evs = true ->
  exists v', replay (Some v) evs = Some v' /\ same_identity v v' = true.
Proof.
  revert v. induction evs as [| e evs IH]; intros v K; cbn in *.
  - exists v. split; [reflexivity | apply same_identity_refl].
  - destruct e as [[x |] | | | | | | |]; try (now apply IH); try discriminate.
    apply andb_prop in K as [Kx K].
    destruct (IH x K) as (v' & Hr & Hs).
    exists v'. split; [exact Hr | eapply same_identity_trans; eassumption].
Qed.

Lemma identity_kept_sound v evs :
  identity_kept (Some v) evs = true ->
  forall pre new post,
    evs = pre ++ SubjectNext new :: post ->
    exists b, new = Some b /\ same_identity v b = true.
Proof.
  intros K pre new post ->.
  rewrite identity_kept_app in K. apply andb_prop in K as [Kpre K].
  destruct (identity_kept_replay v pre Kpre) as (a & Ha & Hva).
  rewrite Ha in K. cbn in K. apply andb_prop in K as [K _].
  destruct new as [b |]; [| discriminate K].
  exists b. split; [reflexivity | eapply same_identity_trans; eassumption].
Qed.

(** Close a goal on the log of one method, the session and the replies
    being split into their cases. *)
Ltac identity_solve :=
  cbn; unfold same_identity; cbn;
  rewrite ?Z.eqb_refl, ?String.eqb_refl, ?orb_true_r; reflexivity.

Lemma changeName_events_identity b r v :
  identity_kept (Some v) (changeName_events b r v) = true
  /\ forallb (call_of_session v) (changeName_events b r v) = true.
Proof.
  split; destruct v as [? ? ? ? ? ? [[|]]], b, r; identity_solve.
Qed.

Lemma killApp_events_identity r1 r2 p v :
  identity_kept (Some v) (killApp_events r1 r2 p v) = true
  /\ forallb (call_of_session v) (killApp_events r1 r2 p v) = true.
Proof.
  split; killApp_cases v r1 r2 p; identity_solve.
Qed.

Lemma changeName_keeps_identity b h w v :
  subject_value w = Some v -> keeps_identity (changeName b) h w v.
Proof.
  intros E. exists (changeName_events b (changeName_reply b h w v) v).
  rewrite (changeName_active b h w v E). cbn [snd trace subject_value].
  split; [reflexivity |].
  generalize (changeName_reply b h w v) as r. intros r.
  split; [| apply changeName_events_identity].
  unfold changeName_events, changeName_value.
  now destruct (changeName_writes b r v).
Qed.

Lemma applySessionOptions_keeps_identity h w v :
  subject_value w = Some v -> keeps_identity applySessionOptions h w v.
Proof.
  intros E. eexists.
  rewrite (applySessionOptions_active h w v E). cbn [snd trace subject_value].
  split; [reflexivity |].
  generalize (changeName_reply (nameSetToAppId (sessionOptions v)) h w v) as r.
  intros r. unfold applySessionOptions_events.
  repeat split; destruct v as [? ? ? ? ? ? [[|]]], r; identity_solve.
Qed.

Lemma canRedirect_keeps_identity h w v :
  subject_value w = Some v -> keeps_identity canRedirect h w v.
Proof.
  intros E. destruct (redirected v) eqn:R.
  - exists []. rewrite (canRedirect_latched h w v E R), app_nil_r.
    cbn. now rewrite E.
  - exists [SubjectNext (Some (with_redirected true v))].
    rewrite (canRedirect_fresh h w v E R). cbn [snd trace subject_value].
    repeat split. identity_solve.
Qed.

Lemma closeSteamOnHost_keeps_identity h w v :
  subject_value w = Some v -> keeps_identity closeSteamOnHost h w v.
Proof.
  intros E. eexists.
  rewrite (closeSteamOnHost_active h w v E). cbn [snd trace subject_value].
  repeat split.
Qed.

Lemma killApp_keeps_identity h w v :
  subject_value w = Some v -> keeps_identity killApp h w v.
Proof.
  intros E. eexists.
  rewrite (killApp_active h w v E). cbn [snd trace subject_value].
  split; [reflexivity |].
  split; [| apply killApp_events_identity].
  symmetry. apply killApp_events_latched.
Qed.

Lemma suspendApp_keeps_identity h w v :
  subject_value w = Some v -> keeps_identity suspendApp h w v.
Proof.
  intros E. unfold keeps_identity. rewrite (suspendApp_active h w v E).
  set (vs := with_beingSuspended true v).
  set (ws := {| subject_value := Some vs; trace := trace w ++ [SubjectNext (Some vs)] |}).
  destruct (killApp_keeps_identity h ws vs eq_refl) as (evs & Ht & Hv & Hk & Hc).
  assert (Hs : same_identity v vs = true) by (subst vs; identity_solve).
  exists (SubjectNext (Some vs) :: evs).
  rewrite Ht, Hv. subst ws. cbn [trace].
  rewrite <- app_assoc. repeat split.
  - cbn [identity_kept]. now rewrite Hs, Hk.
  - rewrite (forallb_call_of_session_same v vs evs Hs) in Hc. exact Hc.
Qed.

Lemma perform_keeps_identity o h w v :
  within_session o = true ->
  subject_value w = Some v -> keeps_identity (perform o) h w v.
Proof.
  intros S E. destruct o; try discriminate S; cbn [perform];
    unfold keeps_identity, settled; cbn [snd].
  - now apply applySessionOptions_keeps_identity.
  - now apply changeName_keeps_identity.
  - now apply canRedirect_keeps_identity.
  - now apply closeSteamOnHost_keeps_identity.
  - now apply killApp_keeps_identity.
  - now apply suspendApp_keeps_identity.
Qed.

Lemma perform_all_keeps_identity ops h w v :
  forallb within_session ops = true ->
  subject_value w = Some v -> keeps_identity (perform_all ops) h w v.
Proof.
  revert w v. induction ops as [| o ops IH]; intros w v S E.
  - exists []. cbn. now rewrite app_nil_r, E.
  - cbn [forallb] in S. apply andb_prop in S as [So S].
    destruct (perform_keeps_identity o h w v So E) as (evs1 & Ht1 & Hv1 & Hk1 & Hc1).
    destruct (identity_kept_replay v evs1 Hk1) as (v1 & Hr1 & Hs1).
    rewrite Hr1 in Hv1.
    destruct (IH _ v1 S Hv1) as (evs2 & Ht2 & Hv2 & Hk2 & Hc2).
    exists (evs1 ++ evs2). unfold keeps_identity.
    rewrite perform_all_cons, Ht2, Hv2, Ht1, app_assoc, replay_app,
      identity_kept_app, forallb_app, Hr1, Hk1, Hk2, Hc1.
    repeat split.
    rewrite (forallb_call_of_session_same v v1 evs2 Hs1) in Hc2. exact Hc2.
Qed.

(** X10.  Through any sequence of calls other than [setApp] and [clearApp],
    made on an active session, [steamAppId], [moonDeckAppId] and [name] never
    change: every value pushed to the subject is a session with the three
    fields of the session of the start, and so is the final value. *)
Theorem session_identity_kept h ops w v :
  subject_value w = Some v ->
  forallb within_session ops = true ->
  (exists v', subject_value (after (perform_all ops) h w) = Some v'
              /\ steamAppId v' = steamAppId v
              /\ moonDeckAppId v' = moonDeckAppId v
              /\ name v' = name v)
  /\ (forall pre new post,
        emitted (perform_all ops) h w = pre ++ SubjectNext new :: post ->
        exists b, new = Some b
                  /\ steamAppId b = steamAppId v
                  /\ moonDeckAppId b = moonDeckAppId v
                  /\ name b = name v).
Proof.
  intros E S.
  destruct (perform_all_keeps_identity ops h w v S E) as (evs & Ht & Hv & Hk & _).
  rewrite (emitted_app _ h w evs Ht). unfold after. rewrite Hv.
  split.
  - destruct (identity_kept_replay v evs Hk) as (v' & Hr & Hs).
    exists v'. split; [exact Hr | now apply same_identity_spec].
  - intros pre new post Hsplit.
    destruct (identity_kept_sound v evs Hk pre new post Hsplit) as (b & Hb & Hs).
    exists b. split; [exact Hb | now apply same_identity_spec].
Qed.

(** X10 on "Game X". *)
Lemma session_identity_kept_game_x :
  (exists v',
      subject_value
        (after (perform_all [ChangeName true; CanRedirect; KillApp; SuspendApp;
                             ApplySessionOptions; CloseSteamOnHost])
           obliging_host game_x_world) = Some v'
      /\ steamAppId v' = steamAppId game_x
      /\ moonDeckAppId v' = moonDeckAppId game_x
      /\ name v' = name game_x)
  /\ (forall pre new post,
        emitted (perform_all [ChangeName true; CanRedirect; KillApp; SuspendApp;
                              ApplySessionOptions; CloseSteamOnHost])
          obliging_host game_x_world = pre ++ SubjectNext new :: post ->
        exists b, new = Some b
                  /\ steamAppId b = steamAppId game_x
                  /\ moonDeckAppId b = moonDeckAppId game_x
                  /\ name b = name game_x).
Proof.
  apply (session_identity_kept obliging_host
           [ChangeName true; CanRedirect; KillApp; SuspendApp;
            ApplySessionOptions; CloseSteamOnHost]
           game_x_world game_x); reflexivity.
Defined.

(** X11.  Through any sequence of calls other than [setApp] and [clearApp],
    made on an active session, every remote call is made on behalf of that
    session: a rename names the shortcut [moonDeckAppId] and asks for the
    stored name or for the decimal form of [steamAppId], a terminate call
    names the same shortcut with a timeout of 5000 ms, the only plugin
    method called is [kill_runner], for the same shortcut, and a close-steam
    request is never forced. *)
Theorem remote_calls_on_behalf_of_session h ops w v :
  subject_value w = Some v ->
  forallb within_session ops = true ->
  forall e, In e (emitted (perform_all ops) h w) ->
    match e with
    | SetShortcutName i n _ =>
        i = moonDeckAppId v
        /\ (n = name v \/ n = numberToString (steamAppId v))
    | TerminateApp i t _ => i = moonDeckAppId v /\ t = 5000
    | CallPluginMethod method i _ =>
        method = "kill_runner" /\ i = moonDeckAppId v
    | CloseSteam force _ => force = false
    | _ => True
    end.
Proof.
  intros E S e He.
  destruct (perform_all_keeps_identity ops h w v S E) as (evs & Ht & _ & _ & Hc).
  rewrite (emitted_app _ h w evs Ht) in He.
  rewrite forallb_forall in Hc. specialize (Hc e He).
  destruct e as [| i n r | i t r | m i r | f r | | |]; cbn in Hc; try exact I.
  - apply andb_prop in Hc as [Hi Hn]. apply Z.eqb_eq in Hi.
    apply orb_prop in Hn. rewrite !String.eqb_eq in Hn. now split.
  - apply andb_prop in Hc as [Hi Ht']. apply Z.eqb_eq in Hi, Ht'. now split.
  - apply andb_prop in Hc as [Hm Hi]. apply Z.eqb_eq in Hi.
    apply String.eqb_eq in Hm. now split.
  - now destruct f.
Qed.

(** X11 on "Game X": the terminate call of a [suspendApp]. *)
Lemma remote_calls_on_behalf_of_session_game_x :
  555 = moonDeckAppId game_x /\ 5000 = 5000.
Proof.
  apply (remote_calls_on_behalf_of_session failing_host
           [ChangeName true; SuspendApp] game_x_world game_x
           eq_refl eq_refl (TerminateApp 555 5000 false)).
  vm_compute. tauto.
Defined.

(* ================================================================== *)
(** ** How the methods compose *)
(* ================================================================== *)

(** X12.  Once [canRedirect] has been granted, it is refused for the rest
    of the session: after any sequence of calls other than [setApp] and
    [clearApp], [canRedirect] returns [false]. *)
Theorem redirect_granted_once h ops w :
  outcome canRedirect h w = Returned true ->
  forallb within_session ops = true ->
  canRedirect h (after (perform_all ops) h (after canRedirect h w))
  = (Returned false, after (perform_all ops) h (after canRedirect h w)).
Proof.
  intros G S.
  destruct (subject_value w) as [v |] eqn:E;
    [| unfold outcome in G; rewrite (canRedirect_idle h w E) in G; discriminate G].
  destruct (redirected v) eqn:R;
    [unfold outcome in G; rewrite (canRedirect_latched h w v E R) in G;
     discriminate G |].
  pose proof (canRedirect_fresh h w v E R) as F.
  assert (E1 : subject_value (after canRedirect h w) = Some (with_redirected true v))
    by (unfold after; now rewrite F).
  destruct (perform_all_keeps_latches ops h _ _ S E1) as (evs & _ & Hv & Hl).
  destruct (flags_latched_replay _ evs Hl) as (v' & Hr & Hle).
  apply canRedirect_latched with (v := v').
  - unfold after at 1. now rewrite Hv.
  - unfold flags_le in Hle. cbn in Hle. now destruct (redirected v').
Qed.

(** X12 on "Game X": granted, then refused after a rename, a suspend and a
    kill. *)
Lemma redirect_granted_once_game_x :
  canRedirect failing_host
    (after (perform_all [ChangeName true; SuspendApp; KillApp; CanRedirect])
       failing_host (after canRedirect failing_host game_x_world))
  = (Returned false,
     after (perform_all [ChangeName true; SuspendApp; KillApp; CanRedirect])
       failing_host (after canRedirect failing_host game_x_world)).
Proof.
  apply (redirect_granted_once failing_host
           [ChangeName true; SuspendApp; KillApp; CanRedirect] game_x_world);
    reflexivity.
Defined.

(** X13.  [killApp] leaves the flag [sessionOptions.nameSetToAppId] as it
    found it, so an [applySessionOptions] made after [killApp] asks the host
    for the name form that was in force before [killApp]: the decimal form
    of [steamAppId] when the override was on, the stored name when it was
    off. *)
Theorem killApp_then_applySessionOptions h w v :
  subject_value w = Some v ->
  hd_error (emitted applySessionOptions h (after killApp h w))
  = Some (SetShortcutName (moonDeckAppId v)
            (if nameSetToAppId (sessionOptions v)
             then numberToString (steamAppId v) else name v)
            (host_setShortcutName h (trace (after killApp h w))
               (moonDeckAppId v)
               (if nameSetToAppId (sessionOptions v)
                then numberToString (steamAppId v) else name v))).
Proof.
  intros E.
  pose proof (killApp_after h w v E) as K. rewrite killApp_value_eq in K.
  pose proof (applySessionOptions_active h _ _ K) as A.
  rewrite (emitted_app _ h _ _ (f_equal trace (f_equal snd A))).
  reflexivity.
Qed.

(** X13 on "Game X" once renamed: after [killApp] the override is asked for
    again. *)
Lemma killApp_then_applySessionOptions_game_x :
  hd_error (emitted applySessionOptions obliging_host
              (after killApp obliging_host game_x_renamed_world))
  = Some (SetShortcutName 555 "100" true).
Proof.
  apply (killApp_then_applySessionOptions obliging_host game_x_renamed_world
           (with_nameSetToAppId true game_x)).
  reflexivity.
Defined.

(** X14.  The stored flag follows the last rename that succeeded.  After a
    successful [changeName(b)] the subject holds the session of the start
    with [sessionOptions.nameSetToAppId] equal to [b] and nothing else
    changed, also when another [changeName], successful or not, came just
    before it. *)
Theorem changeName_last_success_wins (b b' : bool) h w v :
  subject_value w = Some v ->
  (outcome (changeName b) h w = Returned true ->
   subject_value (after (changeName b) h w) = Some (with_nameSetToAppId b v))
  /\ (outcome (changeName b) h (after (changeName b') h w) = Returned true ->
      subject_value (after (changeName b) h (after (changeName b') h w))
      = Some (with_nameSetToAppId b v)).
Proof.
  intros E.
  pose proof (changeName_after b' h w v E) as E'.
  split; intros R.
  - rewrite (changeName_outcome b h w v E) in R. injection R as R.
    rewrite (changeName_after b h w v E), R.
    destruct v as [? ? ? ? ? ? [[|]]], b; reflexivity.
  - rewrite (changeName_outcome b h _ _ E') in R. injection R as R.
    rewrite (changeName_after b h _ _ E'), R.
    generalize (changeName_reply b' h w v) as r'. intros r'.
    destruct v as [? ? ? ? ? ? [[|]]], b, b', r'; reflexivity.
Qed.

(** X14 on "Game X": [changeName(true)] then [changeName(false)], both
    successful, give back the session of the start. *)
Lemma changeName_last_success_wins_game_x :
  (outcome (changeName false) obliging_host game_x_world = Returned true ->
   subject_value (after (changeName false) obliging_host game_x_world)
   = Some game_x)
  /\ (outcome (changeName false) obliging_host game_x_renamed_world
      = Returned true ->
      subject_value (after (changeName false) obliging_host game_x_renamed_world)
      = Some game_x).
Proof.
  apply (changeName_last_success_wins false true obliging_host game_x_world game_x).
  reflexivity.
Defined.
